(** * The XML invoice loader of [app.py]: extraction, batching, idempotency gate

    A shallow embedding of [safe_float], [get_file_hash], [get_db_connection]
    and [process_xml_files], with the properties of the load pipeline proved
    about it.

    What is modelled and how:
    - an lxml element is a tree of tag (Clark notation, ["{uri}local"]),
      attributes, text and children; comments and processing instructions
      never match a tag test and are left out;
    - the ElementPath expressions of the program are fixed, so each is given
      as its list of steps ([.] , [tag], [//tag]); [find], [findall] and
      [findtext] evaluate them the way lxml does;
    - Python exceptions are an explicit [outcome]; the database connection is
      explicit state with a journal of the statements executed on it;
    - the builtins [float], [int], [hashlib.md5] and the DuckDB engine's
      decisions (which rows it accepts, when an index creation fails) are
      parameters, bundled in the classes [Builtins] and [Engine]. *)

From Stdlib Require Import ZArith List String Ascii Bool Lia.
From Stdlib Require Import Floats Uint63 DecimalString.
From stdpp Require Import gmap strings.
Import ListNotations.

Local Open Scope string_scope.
Local Open Scope list_scope.
Set Warnings "-register-all".

(** ** Python values and exceptions *)

Inductive exn :=
| AttributeError
| TypeError
| ValueError
| IndexError
| XMLSyntaxError
| CatalogException
| ConversionException
| IndexCreationError.

Inductive outcome (A : Type) :=
| Ret (a : A)
| Raise (e : exn).
Arguments Ret {A} a.
Arguments Raise {A} e.

Class Monad (m : Type -> Type) := {
  ret : forall {A}, A -> m A;
  bind : forall {A B}, m A -> (A -> m B) -> m B }.

Declare Scope py_scope.
Delimit Scope py_scope with py.
Notation "x <- c ;; k" := (bind c (fun x => k))
  (at level 100, c at next level, right associativity) : py_scope.
Notation "c ;;; k" := (bind c (fun _ => k))
  (at level 100, right associativity) : py_scope.
Local Open Scope py_scope.

#[export] Instance outcome_monad : Monad outcome := {
  ret := fun A a => Ret a;
  bind := fun A B c k => match c with Ret a => k a | Raise e => Raise e end }.

(** [try: c  except Exception: h] on a computation without state. Every
    exception of the model derives from [Exception]. *)
Definition try_except {A} (c : outcome A) (h : exn -> outcome A) : outcome A :=
  match c with
  | Ret a => Ret a
  | Raise e => h e
  end.

(** The values [safe_float] meets in this program: [None], a [str] read from
    the document, or a [float] it produced itself earlier. *)
Inductive pyval :=
| PyNone
| PyStr (s : string)
| PyFloat (f : float).

Definition of_str (o : option string) : pyval :=
  match o with Some s => PyStr s | None => PyNone end.

Definition of_float (o : option float) : pyval :=
  match o with Some f => PyFloat f | None => PyNone end.

(** Python's truth test: [None], the empty string and a float equal to
    zero are false. *)
Definition truthy (v : pyval) : bool :=
  match v with
  | PyNone => false
  | PyStr s => negb (String.eqb s "")
  | PyFloat f => negb (PrimFloat.eqb f 0%float)
  end.

(** The builtins the program calls. [float_of_str s = None] and
    [int_of_str s = None] stand for [ValueError]. *)
Class Builtins := {
  float_of_str : string -> option float;
  int_of_str : string -> option Z;
  md5_hexdigest : string -> string }.

Section WithBuiltins.
Context {B : Builtins}.

(** [float(value)] *)
Definition py_float (value : pyval) : outcome float :=
  match value with
  | PyNone => Raise TypeError
  | PyStr s =>
      match float_of_str s with
      | Some f => Ret f
      | None => Raise ValueError
      end
  | PyFloat f => Ret f
  end.

(** [int(text)] for an element's [.text] *)
Definition py_int (value : option string) : outcome Z :=
  match value with
  | None => Raise TypeError
  | Some s =>
      match int_of_str s with
      | Some z => Ret z
      | None => Raise ValueError
      end
  end.

(** [safe_float], lines 26-31 *)
Definition safe_float (value : pyval) : outcome (option float) :=
  try_except
    (if truthy value then f <- py_float value ;; Ret (Some f) else Ret None)
    (fun _ => Ret None).

End WithBuiltins.

(** ** lxml elements and ElementPath *)

Inductive element := Element {
  tag : string;
  attrib : list (string * string);
  text : option string;
  children : list element }.

Inductive step :=
| Self
| Child (t : string)
| Descendant (t : string).

Definition has_tag (t : string) (e : element) : bool := String.eqb (tag e) t.

(** [elem.iterdescendants()]: document order, the element itself excluded *)
Fixpoint iterdescendants (e : element) : list element :=
  match e with
  | Element _ _ _ cs => flat_map (fun c => c :: iterdescendants c) cs
  end.

Definition select (s : step) (result : list element) : list element :=
  match s with
  | Self => result
  | Child t => flat_map (fun e => List.filter (has_tag t) (children e)) result
  | Descendant t => flat_map (fun e => List.filter (has_tag t) (iterdescendants e)) result
  end.

Definition iterfind (path : list step) (elem : element) : list element :=
  fold_left (fun result s => select s result) path [elem].

Definition findall (path : list step) (elem : element) : list element :=
  iterfind path elem.

Definition find (path : list step) (elem : element) : option element :=
  head (iterfind path elem).

(** [findtext]: the default when nothing matches, otherwise [el.text or ''] *)
Definition findtext (path : list step) (default : option string) (elem : element)
  : option string :=
  match find path elem with
  | None => default
  | Some el => Some (match text el with Some s => s | None => "" end)
  end.

(** [elem.get(key)] *)
Fixpoint get (key : string) (attrs : list (string * string)) : option string :=
  match attrs with
  | [] => None
  | (k, v) :: rest => if String.eqb k key then Some v else get key rest
  end.

(** The namespace map [ns] of line 69 and the qualified name a prefixed
    step [ns:local] stands for. *)
Definition ns : string := "http://www.portalfiscal.inf.br/nfcom".

Definition qn (local : string) : string := "{" ++ ns ++ "}" ++ local.

(** ** [str.split] and indexing *)

(** [s.split(sep)] for a non-empty [sep]: [cur] is the piece being read and
    [skip] the number of characters of a matched separator still to pass. *)
Fixpoint split_from (sep s : string) (skip : nat) (cur : string) : list string :=
  match s with
  | EmptyString => [cur]
  | String c s' =>
      match skip with
      | S k => split_from sep s' k cur
      | O =>
          if String.prefix sep s
          then cur :: split_from sep s' (String.length sep - 1) ""
          else split_from sep s' 0 (cur ++ String c "")
      end
  end.

Definition split (sep s : string) : list string := split_from sep s 0 "".

(** [l[i]] *)
Definition getitem {A} (l : list A) (i : nat) : outcome A :=
  match nth_error l i with
  | Some a => Ret a
  | None => Raise IndexError
  end.

(** ** The record of one line item *)

(** The tuple appended to [batch_data] at lines 208-231, in column order. *)
Record Row := mkRow {
  filename : string;
  codigo_filial : option string;
  nNF : Z;
  dhEmi : option string;
  nItem : option string;
  CFOP : option string;
  cClass : option string;
  vProd : option float;
  vBC : option float;
  vDesc : option float;
  vOutro : option float;
  vNF : option float;
  pis_cst : option string;
  cofins_cst : option string;
  pis_vbc : option float;
  cofins_vbc : option float;
  vicms : option float;
  ICMS_CODE : string;
  indicador_devolucao : option string;
  ind_sem_cst : option string }.

(** The values bound to the twenty placeholders of the INSERT statement. *)
Inductive sqlval :=
| SqlNull
| SqlText (s : string)
| SqlInt (z : Z)
| SqlDouble (f : float).

Definition sql_text (o : option string) : sqlval :=
  match o with Some s => SqlText s | None => SqlNull end.

Definition sql_double (o : option float) : sqlval :=
  match o with Some f => SqlDouble f | None => SqlNull end.

Definition params (r : Row) : list sqlval :=
  [ SqlText (filename r); sql_text (codigo_filial r); SqlInt (nNF r);
    sql_text (dhEmi r); sql_text (nItem r); sql_text (CFOP r);
    sql_text (cClass r); sql_double (vProd r); sql_double (vBC r);
    sql_double (vDesc r); sql_double (vOutro r); sql_double (vNF r);
    sql_text (pis_cst r); sql_text (cofins_cst r); sql_double (pis_vbc r);
    sql_double (cofins_vbc r); sql_double (vicms r); SqlText (ICMS_CODE r);
    sql_text (indicador_devolucao r); sql_text (ind_sem_cst r) ].

(** ** Extraction of one line item *)

(** Line 19 *)
Definition icms_tags : list string := ["ICMS00"; "ICMS20"].

(** [elem.text if elem is not None else None] *)
Definition text_of (elem : option element) : option string :=
  match elem with
  | Some el => text el
  | None => None
  end.

(** Line 189: the path [.//ns:{tag}/ns:vICMS] *)
Definition caminho (tag : string) : list step :=
  [Self; Descendant (qn tag); Child (qn "vICMS")].

(** The search of lines 186-194 over a list of variant tags: the value text
    and the code of the first tag whose path matches, the defaults ["0"] and
    ["-"] when the list is exhausted. *)
Fixpoint icms_search (tags : list string) (tag_imposto : element)
  : outcome (pyval * string) :=
  match tags with
  | [] => Ret (PyStr "0", "-")
  | tag :: rest =>
      match find (caminho tag) tag_imposto with
      | Some vICMS_element =>
          code <- getitem (split "ICMS" tag) 1 ;;
          Ret (of_str (text vICMS_element), code)
      | None => icms_search rest tag_imposto
      end
  end.

Section WithBuiltins.
Context {B : Builtins}.

(** The body of the loop over [det] elements, lines 155-231, up to the
    append: [None] is a [continue]; otherwise the record and the new value of
    the variable [vNF], which line 201 overwrites with its own coercion. *)
Definition extract_item (file_name : string) (codigo_filial : option string)
    (nNF : Z) (dhEmi : option string) (vNF : pyval) (det : element)
  : outcome (option (Row * pyval)) :=
  let nItem := get "nItem" (attrib det) in
  match find [Child (qn "prod")] det with
  | None => Ret None
  | Some prod =>
      let cfop := findtext [Child (qn "CFOP")] (Some "0000") prod in
      let cClass_text := findtext [Child (qn "cClass")] None prod in
      let cClass :=
        if truthy (of_str cClass_text)
        then option_map (substring 0 3) cClass_text
        else None in
      let vProd := findtext [Child (qn "vProd")] None prod in
      let vBC := findtext [Child (qn "vBC")] None prod in
      let vDesc := findtext [Child (qn "vDesc")] None prod in
      let vOutro := findtext [Child (qn "vOutro")] None prod in
      match find [Child (qn "imposto")] det with
      | None => Ret None
      | Some tag_imposto =>
          let indicador_devolucao :=
            findtext [Child (qn "indDevolucao")] (Some "0") tag_imposto in
          let ind_sem_cst :=
            findtext [Child (qn "indSemCST")] (Some "-") tag_imposto in
          let pis_cst := find [Child (qn "PIS"); Child (qn "CST")] tag_imposto in
          let cofins_cst := find [Child (qn "COFINS"); Child (qn "CST")] tag_imposto in
          let pis_vbc := find [Child (qn "PIS"); Child (qn "vBC")] tag_imposto in
          let cofins_vbc := find [Child (qn "COFINS"); Child (qn "vBC")] tag_imposto in
          icms <- icms_search icms_tags tag_imposto ;;
          let vicms := fst icms in
          let ICMS_CODE := snd icms in
          vProd <- safe_float (of_str vProd) ;;
          vBC <- safe_float (of_str vBC) ;;
          vDesc <- safe_float (of_str vDesc) ;;
          vOutro <- safe_float (of_str vOutro) ;;
          vNF <- safe_float vNF ;;
          pis_vbc <- safe_float (of_str (text_of pis_vbc)) ;;
          cofins_vbc <- safe_float (of_str (text_of cofins_vbc)) ;;
          vicms <- safe_float vicms ;;
          Ret (Some
            (mkRow file_name codigo_filial nNF dhEmi nItem cfop cClass
               vProd vBC vDesc vOutro vNF
               (text_of pis_cst) (text_of cofins_cst) pis_vbc cofins_vbc
               vicms ICMS_CODE indicador_devolucao ind_sem_cst,
             of_float vNF))
      end
  end.

(** Line 135: the path [.//sirius/codigo_filial], without namespace *)
Definition codigo_filial_path : list step :=
  [Self; Descendant "sirius"; Child "codigo_filial"].

(** What lines 126-151 read for one [Fatura] before its items: the branch
    code, the invoice number, the issue timestamp and the text of the
    invoice total. *)
Record Header := mkHeader {
  h_codigo_filial : option string;
  h_nNF : Z;
  h_dhEmi : option string;
  h_vNF : option string }.

(** Lines 126-151: [Ret None] is a [continue]. The call [nf_com_vivo.find]
    on line 129 raises when line 128 found no [NFComVivo] child. *)
Definition read_header (tree fatura : element) : outcome (option Header) :=
  match find [Child "NFComVivo"] fatura with
  | None => Raise AttributeError
  | Some nf_com_vivo =>
      match find [Self; Descendant (qn "ide")] nf_com_vivo with
      | None => Ret None
      | Some ide =>
          let nNF_elem := find [Child (qn "nNF")] ide in
          let dhEmi_elem := find [Child (qn "dhEmi")] ide in
          let codigo_filial := findtext codigo_filial_path None tree in
          match nNF_elem, dhEmi_elem with
          | Some nNF_elem, Some dhEmi_elem =>
              parsed <- try_except
                          (nNF <- py_int (text nNF_elem) ;;
                           Ret (Some (nNF, text dhEmi_elem)))
                          (fun _ => Ret None) ;;
              match parsed with
              | None => Ret None
              | Some (nNF, dhEmi) =>
                  let total_info := find [Self; Descendant (qn "total")] fatura in
                  let vNF :=
                    match total_info with
                    | Some total_info => findtext [Child (qn "vNF")] None total_info
                    | None => None
                    end in
                  Ret (Some (mkHeader codigo_filial nNF dhEmi vNF))
              end
          | _, _ => Ret None
          end
      end
  end.

End WithBuiltins.

(** ** The DuckDB connection *)

(** The statements that change the database, as the program issues them. *)
Inductive event :=
| CreateTable
| Executemany (batch : list Row)
| CreateIndex (name : string).

(** One database file: the table [itens_completos] when it exists, the
    names of its indexes, and the journal of the statements executed on the
    file since it was created, oldest first. *)
Record Store := mkStore {
  table : option (list Row);
  indexes : list string;
  journal : list event }.

(** What [duckdb.connect] opens when the file does not exist yet *)
Definition empty_store : Store := mkStore None [] [].

(** The engine's own decisions: whether it can store a tuple in the typed
    columns of the table, and whether creating an index fails. *)
Class Engine := {
  accepts : Row -> bool;
  index_fails : Store -> string -> bool }.

(** Computations on a connection: a result or an exception, and the
    database as the statement left it. *)
Definition M (A : Type) : Type := Store -> outcome A * Store.

#[export] Instance M_monad : Monad M := {
  ret := fun A a st => (Ret a, st);
  bind := fun A B c k st =>
    match c st with
    | (Ret a, st') => k a st'
    | (Raise e, st') => (Raise e, st')
    end }.

Definition raise {A} (e : exn) : M A := fun st => (Raise e, st).

Definition lift {A} (c : outcome A) : M A := fun st => (c, st).

(** [try: c  except: h] around statements of the connection *)
Definition try_exceptM {A} (c : M A) (h : exn -> M A) : M A :=
  fun st =>
    match c st with
    | (Ret a, st') => (Ret a, st')
    | (Raise e, st') => h e st'
    end.

(** A [for] loop whose body may raise, threading the loop variables *)
Fixpoint for_each {A S} (l : list A) (body : S -> A -> M S) (s : S) : M S :=
  match l with
  | [] => ret s
  | x :: rest => s' <- body s x ;; for_each rest body s'
  end.

Definition log (ev : event) (st : Store) : Store :=
  mkStore (table st) (indexes st) (journal st ++ [ev]).

(** [SELECT COUNT( * ) FROM itens_completos] *)
Definition select_count : M nat :=
  fun st =>
    match table st with
    | Some rows => (Ret (List.length rows), st)
    | None => (Raise CatalogException, st)
    end.

(** [CREATE TABLE IF NOT EXISTS itens_completos (...)] *)
Definition create_table : M unit :=
  fun st =>
    let st := log CreateTable st in
    match table st with
    | Some _ => (Ret tt, st)
    | None => (Ret tt, mkStore (Some []) (indexes st) (journal st))
    end.

Section WithEngine.
Context {E : Engine}.

(** The INSERT executed for each tuple of the batch in turn, outside any
    transaction: a tuple the engine refuses raises and ends the call. *)
Fixpoint insert_rows (batch : list Row) : M unit :=
  match batch with
  | [] => ret tt
  | r :: rest =>
      fun st =>
        match table st with
        | None => (Raise CatalogException, st)
        | Some rows =>
            if accepts r
            then insert_rows rest (mkStore (Some (rows ++ [r])) (indexes st) (journal st))
            else (Raise ConversionException, st)
        end
  end.

(** [con.executemany("INSERT INTO itens_completos ...", batch_data)] *)
Definition executemany (batch : list Row) : M unit :=
  fun st => insert_rows batch (log (Executemany batch) st).

(** [CREATE INDEX IF NOT EXISTS name ON itens_completos(...)] *)
Definition create_index (name : string) : M unit :=
  fun st =>
    let st := log (CreateIndex name) st in
    match table st with
    | None => (Raise CatalogException, st)
    | Some _ =>
        if index_fails st name then (Raise IndexCreationError, st)
        else if existsb (String.eqb name) (indexes st) then (Ret tt, st)
        else (Ret tt, mkStore (table st) (indexes st ++ [name]) (journal st))
    end.

(** Lines 279-288 *)
Definition create_indexes : M unit :=
  try_exceptM
    (create_index "idx_nNF" ;;;
     create_index "idx_dhEmi" ;;;
     create_index "idx_CFOP" ;;;
     create_index "idx_filename")
    (fun _ => ret tt).

End WithEngine.

(** ** The loader *)

(** An uploaded file: its name, its size in bytes, and the tree lxml builds
    from its bytes, [None] when lxml rejects them. *)
Record UploadedFile := mkFile {
  name : string;
  size : N;
  tree : option element }.

Section Loader.
Context {B : Builtins} {E : Engine}.

(** The local variables [batch_data] and [dados_completos] *)
Record Lists := mkLists {
  batch_data : list Row;
  dados_completos : list Row }.

(** Lines 208-249: append the record, flush a batch that reached 1000 *)
Definition append_row (row : Row) (ls : Lists) : M Lists :=
  let batch_data := batch_data ls ++ [row] in
  if (1000 <=? List.length batch_data)%nat
  then
    executemany batch_data ;;;
    ret (mkLists [] (dados_completos ls ++ batch_data))
  else ret (mkLists batch_data (dados_completos ls)).

(** One turn of the loop over [det] elements, lines 154-249 *)
Definition process_det (file_name : string) (codigo_filial : option string)
    (nNF : Z) (dhEmi : option string) (s : pyval * Lists) (det : element)
  : M (pyval * Lists) :=
  item <- lift (extract_item file_name codigo_filial nNF dhEmi (fst s) det) ;;
  match item with
  | None => ret s
  | Some (row, vNF) =>
      ls <- append_row row (snd s) ;;
      ret (vNF, ls)
  end.

(** One turn of the loop over [Fatura] elements, lines 126-249 *)
Definition process_fatura (file_name : string) (tree : element)
    (ls : Lists) (fatura : element) : M Lists :=
  header <- lift (read_header tree fatura) ;;
  match header with
  | None => ret ls
  | Some h =>
      s <- for_each (findall [Self; Descendant (qn "det")] fatura)
             (process_det file_name (h_codigo_filial h) (h_nNF h) (h_dhEmi h))
             (of_str (h_vNF h), ls) ;;
      ret (snd s)
  end.

(** One turn of the loop over the uploaded files, lines 107-273; [loaded]
    is [dados_completos] as the earlier files left it. *)
Definition process_file (loaded : list Row) (uploaded_file : UploadedFile)
  : M (list Row) :=
  let file_name := name uploaded_file in
  match tree uploaded_file with
  | None => raise XMLSyntaxError
  | Some tree =>
      ls <- for_each (findall [Child "Fatura"] tree)
              (process_fatura file_name tree)
              (mkLists [] loaded) ;;
      match batch_data ls with
      | [] => ret (dados_completos ls)
      | _ :: _ =>
          executemany (batch_data ls) ;;;
          ret (dados_completos ls ++ batch_data ls)
      end
  end.

(** Lines 55-66: the count of an existing, non-empty table *)
Definition existing_rows : M (option nat) :=
  try_exceptM
    (existing_count <- select_count ;;
     ret (if (0 <? existing_count)%nat then Some existing_count else None))
    (fun _ => ret None).

(** [process_xml_files] on the connection it opened; the result is the
    second component of the pair the function returns. *)
Definition process_connection (uploaded_files : list UploadedFile) : M nat :=
  found <- existing_rows ;;
  match found with
  | Some existing_count => ret existing_count
  | None =>
      create_table ;;;
      loaded <- for_each uploaded_files process_file [] ;;
      create_indexes ;;;
      ret (List.length loaded)
  end.

(** [get_file_hash], lines 34-40 *)
Definition get_file_hash (uploaded_files : list UploadedFile) : string :=
  md5_hexdigest
    (String.concat ""
       (List.map
          (fun file =>
             (name file ++ NilEmpty.string_of_uint (N.to_uint (size file)))%string)
          uploaded_files)).

(** The directory [DB_DIR]: the database file of each session id *)
Definition get_db_connection (session_id : string) (databases : gmap string Store)
  : Store :=
  match databases !! session_id with
  | Some st => st
  | None => empty_store
  end.

(** [process_xml_files], lines 49-290, on the directory of databases *)
Definition process_xml_files (uploaded_files : list UploadedFile)
    (session_id : string) (databases : gmap string Store)
  : outcome nat * gmap string Store :=
  let con := get_db_connection session_id databases in
  let r := process_connection uploaded_files con in
  (fst r, <[session_id := snd r]> databases).

End Loader.

(** ** Instances to run the model on concrete documents *)

(** Stand-ins for the builtins on the plain literals the examples below use:
    an optional sign and ASCII digits for [int]; an optional sign, digits and
    an optional fraction for [float], as long as the digits fit the 53-bit
    significand, where one correctly rounded division gives the value CPython
    computes. Longer literals and the other spellings Python accepts
    (exponents, underscores, surrounding blanks, [inf], [nan]) are refused. *)
Definition digit_of (c : ascii) : option Z :=
  let n := nat_of_ascii c in
  if ((48 <=? n) && (n <=? 57))%nat then Some (Z.of_nat (n - 48)) else None.

Fixpoint digits_value (s : string) (acc : Z) : option Z :=
  match s with
  | EmptyString => Some acc
  | String c s' =>
      match digit_of c with
      | Some d => digits_value s' (10 * acc + d)%Z
      | None => None
      end
  end.

Definition unsigned_int (s : string) : option Z :=
  match s with
  | EmptyString => None
  | _ => digits_value s 0%Z
  end.

Definition plain_int (s : string) : option Z :=
  match s with
  | String "-" s' => option_map Z.opp (unsigned_int s')
  | String "+" s' => unsigned_int s'
  | _ => unsigned_int s
  end.

(** The digits before the first point, and what follows it *)
Fixpoint cut_point (s : string) : string * option string :=
  match s with
  | EmptyString => (EmptyString, None)
  | String "." s' => (EmptyString, Some s')
  | String c s' => let r := cut_point s' in (String c (fst r), snd r)
  end.

Definition unsigned_float (s : string) : option float :=
  let r := cut_point s in
  let ip := fst r in
  let fp := match snd r with Some fp => fp | None => EmptyString end in
  match (ip ++ fp)%string with
  | EmptyString => None
  | digits =>
      match digits_value digits 0%Z with
      | Some m =>
          if ((m <? 2 ^ 53)%Z && (String.length fp <=? 15)%nat)%bool
          then Some (PrimFloat.of_uint63 (Uint63.of_Z m)
                     / PrimFloat.of_uint63 (Uint63.of_Z (10 ^ Z.of_nat (String.length fp))))%float
          else None
      | None => None
      end
  end.

Definition plain_float (s : string) : option float :=
  match s with
  | String "-" s' => option_map PrimFloat.opp (unsigned_float s')
  | String "+" s' => unsigned_float s'
  | _ => unsigned_float s
  end.

(** The digest is left as the text it would hash. *)
Definition plain_builtins : Builtins :=
  {| float_of_str := plain_float; int_of_str := plain_int; md5_hexdigest := fun s => s |}.

(** An engine that accepts every tuple and never fails on an index, and one
    on which every index creation fails. *)
Definition lenient_engine : Engine :=
  {| accepts := fun _ => true; index_fails := fun _ _ => false |}.

Definition no_index_engine : Engine :=
  {| accepts := fun _ => true; index_fails := fun _ _ => true |}.

(** ** The extractor on its own *)

(** The records the loops of [process_xml_files] append, without the
    connection: the same [read_header] and [extract_item], with the variable
    [vNF] threaded from one item of an invoice to the next. *)
Section Extractor.
Context {B : Builtins}.

Fixpoint det_records (file_name : string) (codigo_filial : option string)
    (nNF : Z) (dhEmi : option string) (vNF : pyval) (dets : list element)
  : outcome (list Row) :=
  match dets with
  | [] => Ret []
  | det :: rest =>
      item <- extract_item file_name codigo_filial nNF dhEmi vNF det ;;
      match item with
      | None => det_records file_name codigo_filial nNF dhEmi vNF rest
      | Some (row, vNF') =>
          rows <- det_records file_name codigo_filial nNF dhEmi vNF' rest ;;
          Ret (row :: rows)
      end
  end.

Definition fatura_records (file_name : string) (tree fatura : element)
  : outcome (list Row) :=
  header <- read_header tree fatura ;;
  match header with
  | None => Ret []
  | Some h =>
      det_records file_name (h_codigo_filial h) (h_nNF h) (h_dhEmi h)
        (of_str (h_vNF h)) (findall [Self; Descendant (qn "det")] fatura)
  end.

Fixpoint concat_records {A} (f : A -> outcome (list Row)) (l : list A)
  : outcome (list Row) :=
  match l with
  | [] => Ret []
  | x :: rest =>
      rows <- f x ;;
      more <- concat_records f rest ;;
      Ret (rows ++ more)
  end.

Definition file_records (uploaded_file : UploadedFile) : outcome (list Row) :=
  match tree uploaded_file with
  | None => Raise XMLSyntaxError
  | Some tree =>
      concat_records (fatura_records (name uploaded_file) tree)
        (findall [Child "Fatura"] tree)
  end.

Definition records (uploaded_files : list UploadedFile) : outcome (list Row) :=
  concat_records file_records uploaded_files.

End Extractor.

(** ** Specifications of computations on the connection *)

(** [hoare P c Q R]: from a database satisfying [P], [c] either returns a
    value and a database related by [Q], or raises leaving a database in
    [R]. With [R] empty, [c] returns. *)
Definition hoare {A} (P : Store -> Prop) (c : M A)
    (Q : A -> Store -> Prop) (R : Store -> Prop) : Prop :=
  forall st, P st ->
    match c st with
    | (Ret a, st') => Q a st'
    | (Raise _, st') => R st'
    end.

Definition rows_of (st : Store) : list Row :=
  match table st with
  | Some rows => rows
  | None => []
  end.

Definition is_create_index (ev : event) : Prop :=
  match ev with CreateIndex _ => True | _ => False end.

(** ** Notions used in the statements *)

(** No value element of the variant [tag] under the tax block *)
Definition unmatched (tag_imposto : element) (tag : string) : Prop :=
  find (caminho tag) tag_imposto = None.

(** [emits P file]: every record extracted from an invoice of [file]
    satisfies [P]. *)
Definition emits {B : Builtins} (P : Row -> Prop) (file : UploadedFile) : Prop :=
  forall t fatura h v det row v',
    tree file = Some t ->
    read_header t fatura = Ret (Some h) ->
    extract_item (name file) (h_codigo_filial h) (h_nNF h) (h_dhEmi h) v det
      = Ret (Some (row, v')) ->
    P row.

(** A property of [batch_data], [dados_completos] and the database, read on
    the pair of lists *)
Definition InvL (Inv : list Row -> list Row -> Store -> Prop)
    (ls : Lists) (st : Store) : Prop :=
  Inv (batch_data ls) (dados_completos ls) st.

(** The engine stores the tuple. *)
Definition accepted {E : Engine} (r : Row) : Prop := accepts r = true.

(** The table is missing or empty: line 59 lets the run proceed. *)
Definition gate_open (st : Store) : Prop := table st = None \/ table st = Some [].

(** The outcome of [c] and the table it leaves depend on the table only. *)
Definition table_only {A} (c : M A) : Prop :=
  forall st1 st2, table st1 = table st2 ->
    fst (c st1) = fst (c st2) /\ table (snd (c st1)) = table (snd (c st2)).

(** The table holds the records counted so far and the pending batch will
    be accepted. *)
Definition ready {E : Engine} (ls : Lists) (st : Store) : Prop :=
  table st = Some (dados_completos ls) /\ Forall accepted (batch_data ls).

(** The records counted or pending, in order *)
Definition seen (ls : Lists) : list Row := dados_completos ls ++ batch_data ls.

(** The CFOP and ICMS code columns of the INSERT (the sixth and the
    eighteenth placeholder) hold text. *)
Definition codes_not_null (row : Row) : Prop :=
  exists cfop code,
    nth_error (params row) 5 = Some (SqlText cfop)
    /\ nth_error (params row) 17 = Some (SqlText code).

(** What the text of the last match of a path would be *)
Definition last_match_text (path : list step) (elem : element) : option string :=
  match List.last (List.map Some (findall path elem)) None with
  | Some el => Some (match text el with Some s => s | None => "" end)
  | None => None
  end.

(** Every stored row carries the last match of its file's tree. *)
Definition branch_code_is_last_match {B : Builtins} {E : Engine}
    (files : list UploadedFile) (st : Store) : Prop :=
  forall row, In row (rows_of (snd (process_connection files st))) ->
    exists file t,
      In file files /\ tree file = Some t /\ filename row = name file
      /\ codigo_filial row = last_match_text codigo_filial_path t.

(** The row carries the first match of its file's tree. *)
Definition from_first_match (files : list UploadedFile) (row : Row) : Prop :=
  exists file t,
    In file files /\ tree file = Some t /\ filename row = name file
    /\ codigo_filial row =
         match findall codigo_filial_path t with
         | [] => None
         | first :: _ => Some (match text first with Some s => s | None => "" end)
         end.

(** The statement is not an index creation. *)
Definition before_indexes (ev : event) : Prop := ~ is_create_index ev.

(** ** Documents for the examples *)

Definition node (t : string) (cs : list element) : element := Element t [] None cs.

Definition leaf (t s : string) : element := Element t [] (Some s) [].

(** A line item with a product block and the given content of its tax block *)
Definition prod_elem : element :=
  node (qn "prod")
    [leaf (qn "CFOP") "5301"; leaf (qn "cClass") "12345"; leaf (qn "vProd") "12.5"].

Definition det_elem (n : string) (imposto : list element) : element :=
  Element (qn "det") [("nItem", n)] None [prod_elem; node (qn "imposto") imposto].

(** An invoice envelope with number, total and line items *)
Definition fatura_elem (num total : string) (dets : list element) : element :=
  node "Fatura"
    [ node "NFComVivo"
        [ node (qn "NFCom")
            [ node (qn "infNFCom")
                ([ node (qn "ide")
                     [leaf (qn "nNF") num; leaf (qn "dhEmi") "2024-01-01T10:00:00"] ]
                 ++ dets ++ [ node (qn "total") [leaf (qn "vNF") total] ]) ] ] ].

Definition icms_elem (variant value : string) : element :=
  node (qn variant) [leaf (qn "vICMS") value].

(** A tax block whose matched value element has no text *)
Definition empty_variant : list element :=
  [ node (qn "ICMS") [node (qn "ICMS00") [node (qn "vICMS") []]] ].

(** A tax block that lists variant 20 before variant 00 *)
Definition both_variants : list element :=
  [ node (qn "ICMS") [icms_elem "ICMS20" "7.00"; icms_elem "ICMS00" "10.00"] ].

(** A file with two branch codes and two invoices, the second with a total
    of zero *)
Definition sample_tree : element :=
  node "root"
    [ node "sirius" [leaf "codigo_filial" "001"];
      fatura_elem "42" "100.00" [det_elem "1" both_variants; det_elem "2" []];
      node "sirius" [leaf "codigo_filial" "002"];
      fatura_elem "43" "0" [det_elem "1" []; det_elem "2" []] ].

Definition sample_file : UploadedFile := mkFile "a.xml" 10 (Some sample_tree).

(** A file whose first envelope has no [NFComVivo] child *)
Definition headless_file : UploadedFile :=
  mkFile "b.xml" 10
    (Some (node "root" [node "Fatura" []; fatura_elem "42" "100.00" [det_elem "1" []]])).

(** One invoice of 2500 line items, and the records extracted from it *)
Definition large_file : UploadedFile :=
  mkFile "c.xml" 10
    (Some (node "root" [fatura_elem "1" "5" (repeat (det_elem "1" []) 2500)])).

Definition returned (o : outcome (list Row)) : list Row :=
  match o with
  | Ret rs => rs
  | Raise _ => []
  end.

Definition large_rows : list Row := returned (@records plain_builtins [large_file]).

(** ** The rest of the program *)

(** The line item has a product block and a tax block: lines 156-158 and
    169-171 let it through. *)
Definition has_blocks (det : element) : bool :=
  match find [Child (qn "prod")] det, find [Child (qn "imposto")] det with
  | Some _, Some _ => true
  | _, _ => false
  end.

(** The exceptions that can end a run *)
Definition run_error (e : exn) : Prop :=
  e = XMLSyntaxError \/ e = AttributeError \/ e = ConversionException.

(** On a database whose table exists, [c] keeps the table and raises only
    exceptions in [ok]. *)
Definition raises_only {A} (ok : exn -> Prop) (c : M A) : Prop :=
  forall st, table st <> None ->
    match c st with
    | (Ret _, st') => table st' <> None
    | (Raise e, _) => ok e
    end.

(** An insert statement carries between 1 and 1000 tuples. *)
Definition sized (ev : event) : Prop :=
  match ev with
  | Executemany batch => (1 <= List.length batch <= 1000)%nat
  | _ => True
  end.

(** The pending batch is below the capacity and every insert so far was
    within it. *)
Definition within_capacity (ls : Lists) (st : Store) : Prop :=
  (List.length (batch_data ls) < 1000)%nat /\ Forall sized (journal st).


(** The string methods of lines 449-455 *)
Class StrMethods := {
  strip : string -> string;
  upper : string -> string }.

(** [sub in s] *)
Fixpoint contains (sub s : string) : bool :=
  if String.prefix sub s then true
  else match s with
       | EmptyString => false
       | String _ s' => contains sub s'
       end.

(** Lines 453-455: the query sent to the engine *)
Definition final_query {S : StrMethods} (limit_results : bool) (query : string)
  : string :=
  let final_query := strip query in
  if limit_results && negb (contains "LIMIT" (upper final_query))
  then (final_query ++ " LIMIT 1000")%string
  else final_query.

(** Stand-ins on ASCII text: letters a-z to A-Z, blanks removed at both
    ends *)
Definition ascii_upper (c : ascii) : ascii :=
  let n := nat_of_ascii c in
  if ((97 <=? n) && (n <=? 122))%nat then ascii_of_nat (n - 32) else c.

Fixpoint map_string (f : ascii -> ascii) (s : string) : string :=
  match s with
  | EmptyString => EmptyString
  | String c s' => String (f c) (map_string f s')
  end.

Definition is_blank (c : ascii) : bool :=
  let n := nat_of_ascii c in
  ((n =? 32) || ((9 <=? n) && (n <=? 13)))%nat.

Fixpoint lstrip (s : string) : string :=
  match s with
  | EmptyString => EmptyString
  | String c s' => if is_blank c then lstrip s' else s
  end.

Fixpoint rstrip (s : string) : string :=
  match s with
  | EmptyString => EmptyString
  | String c s' =>
      match rstrip s' with
      | EmptyString => if is_blank c then EmptyString else String c EmptyString
      | rest => String c rest
      end
  end.

Definition plain_strings : StrMethods :=
  {| strip := fun s => rstrip (lstrip s); upper := map_string ascii_upper |}.

(** An envelope whose timestamp element has no text *)
Definition undated_fatura : element :=
  node "Fatura"
    [ node "NFComVivo"
        [ node (qn "ide") [leaf (qn "nNF") "7"; node (qn "dhEmi") []];
          det_elem "1" [] ] ].

(** A file lxml rejects *)
Definition broken_file : UploadedFile := mkFile "broken.xml" 3 None.

(** * Properties *)

(** ** Coercion *)

Section CoercionFacts.
Context {B : Builtins}.

Lemma safe_float_returns (value : pyval) : exists r, safe_float value = Ret r.
Proof.
  unfold safe_float.
  destruct (truthy value); [| eexists; reflexivity].
  destruct (py_float value); cbn; eexists; reflexivity.
Qed.

Lemma safe_float_text (s : string) (f : float) :
  s <> "" -> float_of_str s = Some f -> safe_float (PyStr s) = Ret (Some f).
Proof.
  intros Hs Hf. unfold safe_float. cbn.
  destruct (String.eqb_spec s ""); [contradiction |].
  cbn. rewrite Hf. reflexivity.
Qed.

Lemma safe_float_unparsable (s : string) :
  float_of_str s = None -> safe_float (PyStr s) = Ret None.
Proof.
  intros Hf. unfold safe_float. cbn.
  destruct (negb (String.eqb s "")); [| reflexivity].
  cbn. rewrite Hf. reflexivity.
Qed.

(** C5. [safe_float] gives [None] for [None], for the empty string and for
    any text [float] refuses; it gives the float of any other text, the text
    zero included; and it returns on every value, whatever [float] does. *)
Theorem safe_float_contract :
  safe_float PyNone = Ret None
  /\ safe_float (PyStr "") = Ret None
  /\ (forall s, float_of_str s = None -> safe_float (PyStr s) = Ret None)
  /\ (forall s f, s <> "" -> float_of_str s = Some f ->
        safe_float (PyStr s) = Ret (Some f))
  /\ (forall f, float_of_str "0" = Some f -> safe_float (PyStr "0") = Ret (Some f))
  /\ (forall value, exists r, safe_float value = Ret r).
Proof.
  split; [reflexivity |].
  split; [reflexivity |].
  split; [exact safe_float_unparsable |].
  split; [exact safe_float_text |].
  split; [| exact safe_float_returns].
  intros f Hf. apply safe_float_text; [discriminate | exact Hf].
Qed.

End CoercionFacts.

Lemma safe_float_contract_witness :
  @safe_float plain_builtins (PyStr "12.5") = Ret (Some 12.5%float)
  /\ @safe_float plain_builtins (PyStr "0") = Ret (Some 0%float)
  /\ @safe_float plain_builtins (PyStr "abc") = Ret None.
Proof.
  destruct (@safe_float_contract plain_builtins) as (_ & _ & Hbad & Hgood & Hzero & _).
  split; [apply Hgood; [discriminate | reflexivity] |].
  split; [apply Hzero; reflexivity | apply Hbad; reflexivity].
Defined.

(** ** The ICMS search *)

Lemma icms_search_no_match (tags : list string) (t : element) :
  Forall (unmatched t) tags -> icms_search tags t = Ret (PyStr "0", "-").
Proof.
  induction 1 as [| tag rest Htag _ IH]; cbn; [reflexivity |].
  unfold unmatched in Htag. rewrite Htag. exact IH.
Qed.

Lemma icms_search_first_match (pre : list string) (tag : string)
    (post : list string) (t e : element) :
  Forall (unmatched t) pre ->
  find (caminho tag) t = Some e ->
  icms_search (pre ++ tag :: post) t =
    (code <- getitem (split "ICMS" tag) 1 ;; Ret (of_str (text e), code)).
Proof.
  intros Hpre He.
  induction Hpre as [| tg rest Htg _ IH]; cbn [icms_search app].
  - rewrite He. reflexivity.
  - unfold unmatched in Htg. rewrite Htg. exact IH.
Qed.

(** On the list of line 19 the search returns, and a code other than ["-"]
    means that some variant matched. *)
Lemma icms_search_cases (t : element) :
  (Forall (unmatched t) icms_tags /\ icms_search icms_tags t = Ret (PyStr "0", "-"))
  \/ (exists e code, icms_search icms_tags t = Ret (of_str (text e), code)
        /\ code <> "-" /\ ~ Forall (unmatched t) icms_tags).
Proof.
  unfold icms_tags. cbn [icms_search].
  destruct (find (caminho "ICMS00") t) as [e |] eqn:H00.
  - right. exists e, "00". split; [reflexivity |]. split; [discriminate |].
    intros Hall. inversion Hall as [| ? ? Hun _]; subst.
    unfold unmatched in Hun. congruence.
  - destruct (find (caminho "ICMS20") t) as [e |] eqn:H20.
    + right. exists e, "20". split; [reflexivity |]. split; [discriminate |].
      intros Hall. inversion Hall as [| ? ? _ Hrest]; subst.
      inversion Hrest as [| ? ? Hun _]; subst.
      unfold unmatched in Hun. congruence.
    + left. split; [| reflexivity].
      repeat constructor; assumption.
Qed.

(** ** One line item *)

Section ItemFacts.
Context {B : Builtins}.

Ltac run_safe_float :=
  repeat match goal with
  | |- context [safe_float ?x] =>
      let r := fresh "r" in
      let H := fresh "Hr" in
      destruct (safe_float_returns x) as [r H]; rewrite !H; cbn [bind outcome_monad]
  end.

(** What a line item with a product block and a tax block emits *)
Lemma extract_item_emits (fn : string) (cf : option string) (n : Z)
    (dh : option string) (v : pyval) (det prod t : element) :
  find [Child (qn "prod")] det = Some prod ->
  find [Child (qn "imposto")] det = Some t ->
  exists row vi,
    extract_item fn cf n dh v det = Ret (Some (row, of_float (vNF row)))
    /\ filename row = fn /\ codigo_filial row = cf /\ nNF row = n /\ dhEmi row = dh
    /\ CFOP row = findtext [Child (qn "CFOP")] (Some "0000") prod
    /\ safe_float v = Ret (vNF row)
    /\ icms_search icms_tags t = Ret (vi, ICMS_CODE row)
    /\ safe_float vi = Ret (vicms row).
Proof.
  intros Hprod Himp. unfold extract_item. rewrite Hprod, Himp.
  destruct (icms_search_cases t) as [[_ Hs] | (e & code & Hs & _)];
    rewrite Hs; cbn [bind outcome_monad fst snd].
  - run_safe_float.
    match goal with |- exists row vi, Ret (Some (?r, _)) = _ /\ _ => exists r end.
    exists (PyStr "0"). cbn.
    repeat (split; [first [reflexivity | assumption] |]). assumption.
  - run_safe_float.
    match goal with |- exists row vi, Ret (Some (?r, _)) = _ /\ _ => exists r end.
    exists (of_str (text e)). cbn.
    repeat (split; [first [reflexivity | assumption] |]). assumption.
Qed.

Lemma extract_item_skips (fn : string) (cf : option string) (n : Z)
    (dh : option string) (v : pyval) (det : element) :
  find [Child (qn "prod")] det = None \/ find [Child (qn "imposto")] det = None ->
  extract_item fn cf n dh v det = Ret None.
Proof.
  intros [H | H]; unfold extract_item.
  - rewrite H. reflexivity.
  - destruct (find [Child (qn "prod")] det); [| reflexivity].
    rewrite H. reflexivity.
Qed.

(** A line item never raises. *)
Lemma extract_item_returns (fn : string) (cf : option string) (n : Z)
    (dh : option string) (v : pyval) (det : element) :
  exists item, extract_item fn cf n dh v det = Ret item.
Proof.
  destruct (find [Child (qn "prod")] det) as [prod |] eqn:Hprod.
  - destruct (find [Child (qn "imposto")] det) as [t |] eqn:Himp.
    + destruct (extract_item_emits fn cf n dh v det prod t Hprod Himp)
        as (row & vi & Hrun & _).
      eexists. exact Hrun.
    + eexists. apply extract_item_skips. right. exact Himp.
  - eexists. apply extract_item_skips. left. exact Hprod.
Qed.

Lemma extract_item_inv (fn : string) (cf : option string) (n : Z)
    (dh : option string) (v : pyval) (det : element) (row : Row) (v' : pyval) :
  extract_item fn cf n dh v det = Ret (Some (row, v')) ->
  exists prod t vi,
    find [Child (qn "prod")] det = Some prod
    /\ find [Child (qn "imposto")] det = Some t
    /\ v' = of_float (vNF row)
    /\ filename row = fn /\ codigo_filial row = cf /\ nNF row = n /\ dhEmi row = dh
    /\ CFOP row = findtext [Child (qn "CFOP")] (Some "0000") prod
    /\ safe_float v = Ret (vNF row)
    /\ icms_search icms_tags t = Ret (vi, ICMS_CODE row)
    /\ safe_float vi = Ret (vicms row).
Proof.
  intros Hrun.
  destruct (find [Child (qn "prod")] det) as [prod |] eqn:Hprod.
  2: { rewrite extract_item_skips in Hrun by (left; exact Hprod). discriminate. }
  destruct (find [Child (qn "imposto")] det) as [t |] eqn:Himp.
  2: { rewrite extract_item_skips in Hrun by (right; exact Himp). discriminate. }
  destruct (extract_item_emits fn cf n dh v det prod t Hprod Himp)
    as (row' & vi & Hrun' & Hfacts).
  rewrite Hrun' in Hrun. injection Hrun as Hrow Hv. subst row'.
  exists prod, t, vi. split; [reflexivity |]. split; [reflexivity |].
  split; [symmetry; exact Hv | exact Hfacts].
Qed.

End ItemFacts.

(** ** The ICMS fields of a record *)

Section IcmsFacts.
Context {B : Builtins}.

(** C4. A line item with a product block and a tax block emits a record
    whose ICMS code is the suffix of the first tag of [icms_tags] that
    matches under the tax block, whatever the document order, and whose ICMS
    value is the coercion of that match's text; when no tag matches, the code
    is ["-"] and the value the coercion of the text ["0"]. *)
Theorem icms_priority (fn : string) (cf : option string) (n : Z)
    (dh : option string) (v : pyval) (det prod t : element) :
  find [Child (qn "prod")] det = Some prod ->
  find [Child (qn "imposto")] det = Some t ->
  exists row v',
    extract_item fn cf n dh v det = Ret (Some (row, v'))
    /\ (forall pre tag post e,
          icms_tags = pre ++ tag :: post ->
          Forall (unmatched t) pre ->
          find (caminho tag) t = Some e ->
          getitem (split "ICMS" tag) 1 = Ret (ICMS_CODE row)
          /\ safe_float (of_str (text e)) = Ret (vicms row))
    /\ (Forall (unmatched t) icms_tags ->
          ICMS_CODE row = "-" /\ safe_float (PyStr "0") = Ret (vicms row)).
Proof.
  intros Hprod Himp.
  destruct (extract_item_emits fn cf n dh v det prod t Hprod Himp)
    as (row & vi & Hrun & _ & _ & _ & _ & _ & _ & Hs & Hvi).
  exists row, (of_float (vNF row)). split; [exact Hrun |]. split.
  - intros pre tag post e Htags Hpre He.
    rewrite Htags, (icms_search_first_match pre tag post t e Hpre He) in Hs.
    destruct (getitem (split "ICMS" tag) 1) as [code |]; cbn in Hs; [| discriminate].
    injection Hs as Hval Hcode. subst vi code. split; [reflexivity | exact Hvi].
  - intros Hnone. rewrite (icms_search_no_match icms_tags t Hnone) in Hs.
    injection Hs as Hval Hcode. subst vi. split; [symmetry; exact Hcode | exact Hvi].
Qed.

(** C10. When the first matching variant's value element has no text or an
    empty text, the record's ICMS value is null and its code is still that
    variant's suffix; the code ["-"], and with it the value coerced from the
    text ["0"], appears exactly when no tag of [icms_tags] matches. *)
Theorem icms_empty_text (fn : string) (cf : option string) (n : Z)
    (dh : option string) (v : pyval) (det prod t : element) :
  find [Child (qn "prod")] det = Some prod ->
  find [Child (qn "imposto")] det = Some t ->
  exists row v',
    extract_item fn cf n dh v det = Ret (Some (row, v'))
    /\ (forall pre tag post e,
          icms_tags = pre ++ tag :: post ->
          Forall (unmatched t) pre ->
          find (caminho tag) t = Some e ->
          text e = None \/ text e = Some "" ->
          vicms row = None
          /\ getitem (split "ICMS" tag) 1 = Ret (ICMS_CODE row)
          /\ ICMS_CODE row <> "-")
    /\ (ICMS_CODE row = "-" <-> Forall (unmatched t) icms_tags)
    /\ (Forall (unmatched t) icms_tags -> safe_float (PyStr "0") = Ret (vicms row)).
Proof.
  intros Hprod Himp.
  destruct (extract_item_emits fn cf n dh v det prod t Hprod Himp)
    as (row & vi & Hrun & _ & _ & _ & _ & _ & _ & Hs & Hvi).
  exists row, (of_float (vNF row)). split; [exact Hrun |].
  assert (Hiff : ICMS_CODE row = "-" <-> Forall (unmatched t) icms_tags).
  { split.
    - intros Hcode.
      destruct (icms_search_cases t) as [[Hall _] | (e & code & Hs' & Hne & _)];
        [exact Hall |].
      rewrite Hs' in Hs. injection Hs as _ Hc. congruence.
    - intros Hnone. rewrite (icms_search_no_match icms_tags t Hnone) in Hs.
      injection Hs as _ Hc. symmetry. exact Hc. }
  split; [| split; [exact Hiff |]].
  - intros pre tag post e Htags Hpre He Htext.
    assert (Hcode : ICMS_CODE row <> "-").
    { intros Hc. apply Hiff in Hc. rewrite Htags in Hc.
      apply Forall_app in Hc as [_ Hc]. inversion Hc as [| ? ? Hun _]; subst.
      unfold unmatched in Hun. congruence. }
    rewrite Htags, (icms_search_first_match pre tag post t e Hpre He) in Hs.
    destruct (getitem (split "ICMS" tag) 1) as [code |]; cbn in Hs; [| discriminate].
    injection Hs as Hval Hc. subst vi code.
    split; [| split; [reflexivity | exact Hcode]].
    destruct Htext as [Ht | Ht]; rewrite Ht in Hvi; cbn in Hvi; congruence.
  - intros Hnone. rewrite (icms_search_no_match icms_tags t Hnone) in Hs.
    injection Hs as Hval _. subst vi. exact Hvi.
Qed.

End IcmsFacts.

Lemma icms_priority_witness :
  exists row v',
    @extract_item plain_builtins "a.xml" None 42 None PyNone
      (det_elem "1" both_variants) = Ret (Some (row, v'))
    /\ ICMS_CODE row = "00" /\ vicms row = Some 10%float.
Proof.
  destruct (@icms_priority plain_builtins "a.xml" None 42%Z None PyNone
              (det_elem "1" both_variants) prod_elem
              (node (qn "imposto") both_variants) eq_refl eq_refl)
    as (row & v' & Hrun & Hfirst & _).
  exists row, v'. split; [exact Hrun |].
  destruct (Hfirst [] "ICMS00" ["ICMS20"] (leaf (qn "vICMS") "10.00")
              eq_refl (List.Forall_nil _) eq_refl) as [Hcode Hval].
  split; [injection Hcode as Hcode; symmetry; exact Hcode |].
  injection Hval as Hval. symmetry. exact Hval.
Defined.

Lemma icms_empty_text_witness :
  exists row v',
    @extract_item plain_builtins "a.xml" None 42 None PyNone
      (det_elem "1" empty_variant) = Ret (Some (row, v'))
    /\ ICMS_CODE row = "00" /\ vicms row = None.
Proof.
  destruct (@icms_empty_text plain_builtins "a.xml" None 42%Z None PyNone
              (det_elem "1" empty_variant) prod_elem
              (node (qn "imposto") empty_variant) eq_refl eq_refl)
    as (row & v' & Hrun & Hfirst & _).
  exists row, v'. split; [exact Hrun |].
  destruct (Hfirst [] "ICMS00" ["ICMS20"] (node (qn "vICMS") [])
              eq_refl (List.Forall_nil _) eq_refl (or_introl eq_refl))
    as (Hval & Hcode & _).
  split; [injection Hcode as Hcode; symmetry; exact Hcode | exact Hval].
Defined.

(** ** Rules for computations on the connection *)

Section HoareRules.
Implicit Types (P : Store -> Prop) (R : Store -> Prop).

Lemma hoare_ret {A} (a : A) (Q : A -> Store -> Prop) R : hoare (Q a) (ret a) Q R.
Proof. intros st H. exact H. Qed.

Lemma hoare_raise {A} (e : exn) (Q : A -> Store -> Prop) R : hoare R (raise e) Q R.
Proof. intros st H. exact H. Qed.

Lemma hoare_lift {A} (c : outcome A) P (Q : A -> Store -> Prop) R :
  (forall st, P st -> match c with Ret a => Q a st | Raise _ => R st end) ->
  hoare P (lift c) Q R.
Proof. intros H st HP. unfold lift. specialize (H st HP). destruct c; exact H. Qed.

Lemma hoare_bind {A A'} P (c : M A) (k : A -> M A')
    (Q : A -> Store -> Prop) (Q' : A' -> Store -> Prop) R :
  hoare P c Q R -> (forall a, hoare (Q a) (k a) Q' R) -> hoare P (bind c k) Q' R.
Proof.
  intros Hc Hk st HP. specialize (Hc st HP). cbn.
  destruct (c st) as [[a | e] st']; [apply Hk |]; exact Hc.
Qed.

Lemma hoare_try {A} P (c : M A) (h : exn -> M A) (Q : A -> Store -> Prop) R R' :
  hoare P c Q R' -> (forall e, hoare R' (h e) Q R) -> hoare P (try_exceptM c h) Q R.
Proof.
  intros Hc Hh st HP. specialize (Hc st HP). unfold try_exceptM.
  destruct (c st) as [[a | e] st']; [| apply Hh]; exact Hc.
Qed.

Lemma hoare_conseq {A} P P' (c : M A) (Q Q' : A -> Store -> Prop) R R' :
  hoare P c Q R ->
  (forall st, P' st -> P st) ->
  (forall a st, Q a st -> Q' a st) ->
  (forall st, R st -> R' st) ->
  hoare P' c Q' R'.
Proof.
  intros Hc HP HQ HR st HP'. specialize (Hc st (HP st HP')).
  destruct (c st) as [[a | e] st']; [apply HQ | apply HR]; exact Hc.
Qed.

Lemma hoare_for_each {A S} (I : S -> Store -> Prop) R (l : list A)
    (body : S -> A -> M S) :
  (forall s x, In x l -> hoare (I s) (body s x) I R) ->
  forall s, hoare (I s) (for_each l body s) I R.
Proof.
  induction l as [| x rest IH]; intros Hbody s; cbn [for_each].
  - apply hoare_ret.
  - eapply hoare_bind.
    + apply Hbody. left. reflexivity.
    + intros s'. apply IH. intros s0 y Hy. apply Hbody. right. exact Hy.
Qed.

End HoareRules.

(** ** Invariants of the loading loops *)

Section LoopInvariant.
Context {B : Builtins} {E : Engine}.

(** [Inv batch_data dados_completos st] is a property of the two lists and
    the database that appending a record and flushing a batch preserve; [R]
    is what is left of it when an exception ends the run. *)
Variable Inv : list Row -> list Row -> Store -> Prop.
Variable R : Store -> Prop.
Variable Prow : Row -> Prop.

Hypothesis Inv_raise : forall batch dados st, Inv batch dados st -> R st.
Hypothesis Inv_push : forall row batch dados st,
  Prow row -> Inv batch dados st -> Inv (batch ++ [row]) dados st.
Hypothesis Inv_flush : forall batch dados,
  batch <> [] ->
  hoare (Inv batch dados) (executemany batch) (fun _ => Inv [] (dados ++ batch)) R.

Lemma append_row_inv (row : Row) (ls : Lists) :
  Prow row -> hoare (InvL Inv ls) (append_row row ls) (InvL Inv) R.
Proof using Inv_push Inv_flush.
  intros Hrow st Hinv. unfold append_row.
  destruct (1000 <=? List.length (batch_data ls ++ [row]))%nat;
    cbn [bind ret M_monad].
  - assert (Hne : batch_data ls ++ [row] <> []) by (destruct (batch_data ls); discriminate).
    pose proof (Inv_flush (batch_data ls ++ [row]) (dados_completos ls) Hne st
                  (Inv_push row _ _ st Hrow Hinv)) as H.
    destruct (executemany (batch_data ls ++ [row]) st) as [[[] | e] st']; exact H.
  - apply Inv_push; assumption.
Qed.

Lemma process_det_inv (fn : string) (cf : option string) (n : Z)
    (dh : option string) (s : pyval * Lists) (det : element) :
  (forall v row v', extract_item fn cf n dh v det = Ret (Some (row, v')) -> Prow row) ->
  hoare (InvL Inv (snd s)) (process_det fn cf n dh s det) (fun s' => InvL Inv (snd s')) R.
Proof using Inv_raise Inv_push Inv_flush.
  intros Hemit st Hinv. unfold process_det, lift. cbn [bind ret M_monad].
  destruct (extract_item fn cf n dh (fst s) det) as [[[row v'] |] | e] eqn:Hx.
  - pose proof (append_row_inv row (snd s) (Hemit _ _ _ Hx) st Hinv) as H.
    destruct (append_row row (snd s) st) as [[ls | e] st']; exact H.
  - exact Hinv.
  - eapply Inv_raise. exact Hinv.
Qed.

Lemma process_fatura_inv (file : UploadedFile) (t : element) (ls : Lists)
    (fatura : element) :
  emits Prow file -> tree file = Some t ->
  hoare (InvL Inv ls) (process_fatura (name file) t ls fatura) (InvL Inv) R.
Proof using Inv_raise Inv_push Inv_flush.
  intros Hemit Ht st Hinv. unfold process_fatura, lift. cbn [bind ret M_monad].
  destruct (read_header t fatura) as [[h |] | e] eqn:Hh.
  - pose proof (hoare_for_each (fun s => InvL Inv (snd s)) R
                  (findall [Self; Descendant (qn "det")] fatura)
                  (process_det (name file) (h_codigo_filial h) (h_nNF h) (h_dhEmi h)))
      as Hloop.
    specialize (Hloop (fun s det _ =>
      process_det_inv (name file) (h_codigo_filial h) (h_nNF h) (h_dhEmi h) s det
        (fun v row v' Hx => Hemit t fatura h v det row v' Ht Hh Hx))).
    specialize (Hloop (of_str (h_vNF h), ls) st Hinv).
    destruct (for_each _ _ _ st) as [[s' | e] st']; exact Hloop.
  - exact Hinv.
  - eapply Inv_raise. exact Hinv.
Qed.

Lemma process_file_inv (loaded : list Row) (file : UploadedFile) :
  emits Prow file ->
  hoare (Inv [] loaded) (process_file loaded file) (Inv []) R.
Proof using Inv_raise Inv_push Inv_flush.
  intros Hemit st Hinv. unfold process_file.
  destruct (tree file) as [t |] eqn:Ht; [| eapply Inv_raise; exact Hinv].
  cbn [bind ret M_monad].
  pose proof (hoare_for_each (InvL Inv) R (findall [Child "Fatura"] t)
                (process_fatura (name file) t)
                (fun ls fatura _ => process_fatura_inv file t ls fatura Hemit Ht)
                (mkLists [] loaded) st Hinv) as Hloop.
  destruct (for_each _ _ _ st) as [[ls | e] st']; [| exact Hloop].
  unfold InvL in Hloop.
  destruct (batch_data ls) as [| r batch] eqn:Hb; [exact Hloop |].
  pose proof (Inv_flush (r :: batch) (dados_completos ls) ltac:(discriminate)
                st' Hloop) as Hflush.
  cbn [bind ret M_monad].
  destruct (executemany (r :: batch) st') as [[[] | e] st'']; exact Hflush.
Qed.

Lemma load_files_inv (files : list UploadedFile) (loaded : list Row) :
  Forall (emits Prow) files ->
  hoare (Inv [] loaded) (for_each files process_file loaded) (Inv []) R.
Proof using Inv_raise Inv_push Inv_flush.
  intros Hemit. apply (hoare_for_each (Inv []) R).
  intros loaded' file Hin. apply process_file_inv.
  rewrite List.Forall_forall in Hemit. apply Hemit. exact Hin.
Qed.

End LoopInvariant.

(** ** Statements of the connection *)

Section EngineFacts.
Context {E : Engine}.

Lemma insert_rows_frame (batch : list Row) (st : Store) :
  indexes (snd (insert_rows batch st)) = indexes st
  /\ journal (snd (insert_rows batch st)) = journal st.
Proof.
  revert st. induction batch as [| r rest IH]; intros st; cbn; [split; reflexivity |].
  destruct (table st) as [rows |]; [| split; reflexivity].
  destruct (accepts r); [| split; reflexivity].
  destruct (IH (mkStore (Some (rows ++ [r])) (indexes st) (journal st))) as [Hi Hj].
  split; assumption.
Qed.

(** Whatever the outcome, the table grew by a prefix of the batch. *)
Lemma insert_rows_prefix (batch : list Row) (st : Store) :
  exists done rest,
    batch = done ++ rest
    /\ rows_of (snd (insert_rows batch st)) = rows_of st ++ done.
Proof.
  revert st. induction batch as [| r rest IH]; intros st; cbn.
  - exists [], []. split; [reflexivity | symmetry; apply app_nil_r].
  - destruct (table st) as [rows |] eqn:Ht.
    + destruct (accepts r).
      * destruct (IH (mkStore (Some (rows ++ [r])) (indexes st) (journal st)))
          as (done & rest' & Hb & Hr).
        exists (r :: done), rest'. split; [rewrite Hb; reflexivity |].
        rewrite Hr. unfold rows_of at 1 2. cbn. rewrite Ht.
        rewrite <- app_assoc. reflexivity.
      * exists [], (r :: rest). split; [reflexivity | symmetry; apply app_nil_r].
    + exists [], (r :: rest). split; [reflexivity | symmetry; apply app_nil_r].
Qed.

(** A call that returns has appended the whole batch. *)
Lemma insert_rows_ret (batch : list Row) (st : Store) (rows : list Row) :
  table st = Some rows ->
  fst (insert_rows batch st) = Ret tt ->
  table (snd (insert_rows batch st)) = Some (rows ++ batch).
Proof.
  revert st rows. induction batch as [| r rest IH]; intros st rows Ht; cbn.
  - intros _. rewrite Ht, app_nil_r. reflexivity.
  - rewrite Ht. destruct (accepts r); [| discriminate].
    intros Hret.
    rewrite (IH (mkStore (Some (rows ++ [r])) (indexes st) (journal st))
               (rows ++ [r]) eq_refl Hret).
    rewrite <- app_assoc. reflexivity.
Qed.

(** A batch of accepted tuples is inserted whole. *)
Lemma insert_rows_accepted (batch : list Row) (st : Store) (rows : list Row) :
  table st = Some rows ->
  Forall accepted batch ->
  fst (insert_rows batch st) = Ret tt.
Proof.
  intros Ht Hall. revert st rows Ht.
  induction Hall as [| r rest Hr _ IH]; intros st rows Ht; cbn; [reflexivity |].
  rewrite Ht, Hr.
  apply (IH (mkStore (Some (rows ++ [r])) (indexes st) (journal st)) (rows ++ [r])).
  reflexivity.
Qed.

Lemma executemany_frame (batch : list Row) (st : Store) :
  indexes (snd (executemany batch st)) = indexes st
  /\ journal (snd (executemany batch st)) = journal st ++ [Executemany batch].
Proof. unfold executemany. apply (insert_rows_frame batch (log (Executemany batch) st)). Qed.

Lemma executemany_prefix (batch : list Row) (st : Store) :
  exists done rest,
    batch = done ++ rest
    /\ rows_of (snd (executemany batch st)) = rows_of st ++ done.
Proof. unfold executemany. apply (insert_rows_prefix batch (log (Executemany batch) st)). Qed.

Lemma executemany_ret (batch : list Row) (st : Store) (rows : list Row) :
  table st = Some rows ->
  fst (executemany batch st) = Ret tt ->
  table (snd (executemany batch st)) = Some (rows ++ batch).
Proof. unfold executemany. apply (insert_rows_ret batch (log (Executemany batch) st)). Qed.

Lemma executemany_accepted (batch : list Row) (st : Store) (rows : list Row) :
  table st = Some rows ->
  Forall accepted batch ->
  fst (executemany batch st) = Ret tt.
Proof. unfold executemany. apply (insert_rows_accepted batch (log (Executemany batch) st)). Qed.

Lemma create_index_frame (name : string) (st : Store) :
  table (snd (create_index name st)) = table st
  /\ journal (snd (create_index name st)) = journal st ++ [CreateIndex name].
Proof.
  unfold create_index. cbn.
  destruct (table st) eqn:Ht; [| cbn; rewrite Ht; split; reflexivity].
  destruct (index_fails _ name); [cbn; rewrite Ht; split; reflexivity |].
  destruct (existsb _ _); cbn; rewrite ?Ht; split; reflexivity.
Qed.

(** An index that exists is left alone, whether or not the statement fails. *)
Lemma create_index_exists (name : string) (st : Store) :
  In name (indexes st) ->
  indexes (snd (create_index name st)) = indexes st.
Proof.
  intros Hin. unfold create_index. cbn.
  destruct (table st); [| reflexivity].
  destruct (index_fails _ name); [reflexivity |].
  destruct (existsb (String.eqb name) (indexes st)) eqn:Hex; [reflexivity |].
  exfalso. apply Bool.not_true_iff_false in Hex. apply Hex.
  apply existsb_exists. exists name. split; [exact Hin | apply String.eqb_refl].
Qed.

(** The indexes a database has are kept, and none is listed twice. *)
Lemma create_index_keeps (name : string) (st : Store) :
  NoDup (indexes st) ->
  NoDup (indexes (snd (create_index name st)))
  /\ (forall i, In i (indexes st) -> In i (indexes (snd (create_index name st)))).
Proof.
  intros Hnd. unfold create_index. cbn.
  destruct (table st); [| split; [exact Hnd | auto]].
  destruct (index_fails _ name); [split; [exact Hnd | auto] |].
  destruct (existsb (String.eqb name) (indexes st)) eqn:Hex;
    [split; [exact Hnd | auto] |].
  cbn. split.
  - apply NoDup_app. split; [exact Hnd |]. split.
    + intros x Hx Hx'. apply list_elem_of_In in Hx, Hx'.
      destruct Hx' as [Heq | []]. subst x.
      apply Bool.not_true_iff_false in Hex. apply Hex.
      apply existsb_exists. exists name. split; [exact Hx | apply String.eqb_refl].
    + apply NoDup_singleton.
  - intros i Hi. apply in_or_app. left. exact Hi.
Qed.

End EngineFacts.

(** ** The gate, the table and the indexes *)

Lemma existing_rows_found (st : Store) (rows : list Row) :
  table st = Some rows -> rows <> [] ->
  existing_rows st = (Ret (Some (List.length rows)), st).
Proof.
  intros Ht Hne. unfold existing_rows, try_exceptM, select_count. cbn. rewrite Ht.
  destruct rows; [contradiction | reflexivity].
Qed.

Lemma existing_rows_none (st : Store) :
  gate_open st -> existing_rows st = (Ret None, st).
Proof.
  intros [Ht | Ht]; unfold existing_rows, try_exceptM, select_count; cbn;
    rewrite Ht; reflexivity.
Qed.

Lemma gate_cases (st : Store) :
  gate_open st \/ exists rows, table st = Some rows /\ rows <> [].
Proof.
  unfold gate_open. destruct (table st) as [[| r rows] |].
  - left. right. reflexivity.
  - right. exists (r :: rows). split; [reflexivity | discriminate].
  - left. left. reflexivity.
Qed.

Lemma create_table_open (st : Store) :
  gate_open st ->
  create_table st
    = (Ret tt, mkStore (Some []) (indexes st) (journal st ++ [CreateTable])).
Proof. intros [Ht | Ht]; unfold create_table, log; cbn; rewrite Ht; reflexivity. Qed.

Section IndexFacts.
Context {E : Engine}.

Ltac index_step name st :=
  let T := fresh "T" in
  let J := fresh "J" in
  let s := fresh "s" in
  destruct (create_index_frame name st) as [T J];
  destruct (create_index name st) as [[[] | ?] s]; cbn [fst snd] in T, J.

(** Lines 279-288 return whatever the engine does, leave the table alone
    and add only index statements to the journal. *)
Lemma create_indexes_returns (st : Store) :
  exists st',
    create_indexes st = (Ret tt, st')
    /\ table st' = table st
    /\ exists idx, journal st' = journal st ++ idx /\ Forall is_create_index idx.
Proof.
  unfold create_indexes, try_exceptM. cbn [bind ret M_monad].
  index_step "idx_nNF" st.
  2: { eexists. split; [reflexivity |]. split; [exact T |].
       eexists. split; [exact J |]. repeat constructor. }
  index_step "idx_dhEmi" s.
  2: { eexists. split; [reflexivity |]. split; [congruence |].
       exists [CreateIndex "idx_nNF"; CreateIndex "idx_dhEmi"].
       split; [rewrite J0, J, <- app_assoc; reflexivity | repeat constructor]. }
  index_step "idx_CFOP" s0.
  2: { eexists. split; [reflexivity |]. split; [congruence |].
       exists [CreateIndex "idx_nNF"; CreateIndex "idx_dhEmi"; CreateIndex "idx_CFOP"].
       split; [rewrite J1, J0, J, <- !app_assoc; reflexivity | repeat constructor]. }
  index_step "idx_filename" s1.
  - eexists. split; [reflexivity |]. split; [congruence |].
    exists [CreateIndex "idx_nNF"; CreateIndex "idx_dhEmi"; CreateIndex "idx_CFOP";
            CreateIndex "idx_filename"].
    split; [rewrite J2, J1, J0, J, <- !app_assoc; reflexivity | repeat constructor].
  - eexists. split; [reflexivity |]. split; [congruence |].
    exists [CreateIndex "idx_nNF"; CreateIndex "idx_dhEmi"; CreateIndex "idx_CFOP";
            CreateIndex "idx_filename"].
    split; [rewrite J2, J1, J0, J, <- !app_assoc; reflexivity | repeat constructor].
Qed.

End IndexFacts.

Section RunFacts.
Context {B : Builtins} {E : Engine}.

(** The run behind a closed gate *)
Lemma process_connection_found (files : list UploadedFile) (st : Store)
    (rows : list Row) :
  table st = Some rows -> rows <> [] ->
  process_connection files st = (Ret (List.length rows), st).
Proof.
  intros Ht Hne. unfold process_connection. cbn [bind ret M_monad].
  rewrite (existing_rows_found st rows Ht Hne). reflexivity.
Qed.

(** The run behind an open gate: the files are loaded into the new or empty
    table, then the indexes are created. *)
Lemma process_connection_open (files : list UploadedFile) (st : Store) :
  gate_open st ->
  process_connection files st =
    match for_each files process_file []
            (mkStore (Some []) (indexes st) (journal st ++ [CreateTable])) with
    | (Ret loaded, st1) => (Ret (List.length loaded), snd (create_indexes st1))
    | (Raise e, st1) => (Raise e, st1)
    end.
Proof.
  intros Hopen. unfold process_connection. cbn [bind ret M_monad].
  rewrite (existing_rows_none st Hopen), (create_table_open st Hopen).
  destruct (for_each files process_file [] _) as [[loaded | e] st1]; [| reflexivity].
  destruct (create_indexes_returns st1) as (st' & Hrun & _).
  rewrite Hrun. reflexivity.
Qed.

(** While the files are loaded, the table holds exactly the records counted
    in [dados_completos]. *)
Lemma load_files_table (files : list UploadedFile) (loaded : list Row) :
  hoare (fun st => table st = Some loaded) (for_each files process_file loaded)
    (fun loaded' st' => table st' = Some loaded') (fun _ => True).
Proof.
  apply (load_files_inv (fun _ dados st => table st = Some dados) (fun _ => True)
           (fun _ => True)).
  - intros batch dados st _. exact I.
  - intros row batch dados st _ H. exact H.
  - intros batch dados _ st Ht.
    pose proof (executemany_ret batch st dados Ht) as Hret.
    destruct (executemany batch st) as [[[] | e] st']; cbn [fst snd] in Hret;
      [apply Hret; reflexivity | exact I].
  - apply List.Forall_forall. intros file _ t fatura h v det row v' _ _ _. exact I.
Qed.

(** A run that returns reports the number of rows of the table. *)
Lemma process_connection_count (files : list UploadedFile) (st st' : Store) (n : nat) :
  process_connection files st = (Ret n, st') ->
  exists rows, table st' = Some rows /\ List.length rows = n.
Proof.
  intros Hrun.
  destruct (gate_cases st) as [Hopen | (rows & Ht & Hne)].
  - rewrite (process_connection_open files st Hopen) in Hrun.
    pose proof (load_files_table files []
                  (mkStore (Some []) (indexes st) (journal st ++ [CreateTable]))
                  eq_refl) as Hload.
    destruct (for_each files process_file [] _) as [[loaded | e] st1];
      [| discriminate].
    injection Hrun as Hn Hst. subst n st'.
    destruct (create_indexes_returns st1) as (st2 & Hidx & Htable & _).
    rewrite Hidx. cbn [snd]. exists loaded. split; [congruence | reflexivity].
  - rewrite (process_connection_found files st rows Ht Hne) in Hrun.
    injection Hrun as Hn Hst. subst n st'. exists rows. split; [exact Ht | reflexivity].
Qed.

End RunFacts.

(** ** The loading loops read nothing of the database but its table *)

Lemma table_only_ret {A} (a : A) : table_only (ret a).
Proof. intros st1 st2 H. split; [reflexivity | exact H]. Qed.

Lemma table_only_lift {A} (c : outcome A) : table_only (lift c).
Proof. intros st1 st2 H. split; [reflexivity | exact H]. Qed.

Lemma table_only_raise {A} (e : exn) : table_only (@raise A e).
Proof. intros st1 st2 H. split; [reflexivity | exact H]. Qed.

Lemma table_only_bind {A A'} (c : M A) (k : A -> M A') :
  table_only c -> (forall a, table_only (k a)) -> table_only (bind c k).
Proof.
  intros Hc Hk st1 st2 H. cbn [bind M_monad].
  destruct (Hc st1 st2 H) as [Hr Ht].
  destruct (c st1) as [[a1 | e1] s1], (c st2) as [[a2 | e2] s2];
    cbn [fst snd] in Hr, Ht; try discriminate.
  - injection Hr as Hr. subst a2. apply Hk. exact Ht.
  - injection Hr as Hr. subst e2. split; [reflexivity | exact Ht].
Qed.

Lemma table_only_for_each {A S} (l : list A) (body : S -> A -> M S) :
  (forall s x, table_only (body s x)) -> forall s, table_only (for_each l body s).
Proof.
  intros Hbody. induction l as [| x rest IH]; intros s; cbn [for_each].
  - apply table_only_ret.
  - apply table_only_bind; [apply Hbody | exact IH].
Qed.

Section TableOnly.
Context {B : Builtins} {E : Engine}.

Lemma table_only_insert_rows (batch : list Row) : table_only (insert_rows batch).
Proof.
  induction batch as [| r rest IH]; intros st1 st2 H; cbn.
  - split; [reflexivity | exact H].
  - rewrite <- H. destruct (table st1) as [rows |] eqn:Ht.
    + destruct (accepts r).
      * apply IH. reflexivity.
      * split; [reflexivity | cbn; congruence].
    + split; [reflexivity | cbn; congruence].
Qed.

Lemma table_only_executemany (batch : list Row) : table_only (executemany batch).
Proof.
  intros st1 st2 H. unfold executemany. apply table_only_insert_rows. exact H.
Qed.

Lemma table_only_append_row (row : Row) (ls : Lists) : table_only (append_row row ls).
Proof.
  unfold append_row.
  destruct (1000 <=? List.length (batch_data ls ++ [row]))%nat.
  - apply table_only_bind; [apply table_only_executemany |].
    intros _. apply table_only_ret.
  - apply table_only_ret.
Qed.

Lemma table_only_process_det (fn : string) (cf : option string) (n : Z)
    (dh : option string) (s : pyval * Lists) (det : element) :
  table_only (process_det fn cf n dh s det).
Proof.
  unfold process_det. apply table_only_bind; [apply table_only_lift |].
  intros [[row v'] |]; [| apply table_only_ret].
  apply table_only_bind; [apply table_only_append_row |].
  intros ls. apply table_only_ret.
Qed.

Lemma table_only_process_fatura (fn : string) (t : element) (ls : Lists)
    (fatura : element) :
  table_only (process_fatura fn t ls fatura).
Proof.
  unfold process_fatura. apply table_only_bind; [apply table_only_lift |].
  intros [h |]; [| apply table_only_ret].
  apply table_only_bind.
  - apply table_only_for_each. intros s det. apply table_only_process_det.
  - intros s. apply table_only_ret.
Qed.

Lemma table_only_process_file (loaded : list Row) (file : UploadedFile) :
  table_only (process_file loaded file).
Proof.
  unfold process_file. destruct (tree file) as [t |]; [| apply table_only_raise].
  apply table_only_bind.
  - apply table_only_for_each. intros ls fatura. apply table_only_process_fatura.
  - intros ls. destruct (batch_data ls); [apply table_only_ret |].
    apply table_only_bind; [apply table_only_executemany |].
    intros _. apply table_only_ret.
Qed.

Lemma table_only_load_files (files : list UploadedFile) (loaded : list Row) :
  table_only (for_each files process_file loaded).
Proof. apply table_only_for_each. intros s file. apply table_only_process_file. Qed.

(** Loading the same files again: the same count, the same rows. *)
Lemma process_connection_again (files : list UploadedFile) (st st1 : Store) (n : nat) :
  process_connection files st = (Ret n, st1) ->
  exists st2,
    process_connection files st1 = (Ret n, st2) /\ table st2 = table st1.
Proof.
  intros Hrun.
  destruct (process_connection_count files st st1 n Hrun) as (rows & Ht1 & Hn).
  destruct rows as [| r rows].
  2: { exists st1. split; [| reflexivity].
       rewrite (process_connection_found files st1 (r :: rows) Ht1 ltac:(discriminate)).
       rewrite Hn. reflexivity. }
  cbn in Hn. subst n.
  assert (Hopen1 : gate_open st1) by (right; exact Ht1).
  destruct (gate_cases st) as [Hopen | (rows & Ht & Hne)].
  2: { rewrite (process_connection_found files st rows Ht Hne) in Hrun.
       injection Hrun as Hn Hst. subst st1. rewrite Ht in Ht1.
       injection Ht1 as Ht1. contradiction. }
  rewrite (process_connection_open files st Hopen) in Hrun.
  rewrite (process_connection_open files st1 Hopen1).
  destruct (table_only_load_files files []
              (mkStore (Some []) (indexes st) (journal st ++ [CreateTable]))
              (mkStore (Some []) (indexes st1) (journal st1 ++ [CreateTable]))
              eq_refl) as [Hfst Htab].
  destruct (for_each files process_file []
              (mkStore (Some []) (indexes st) (journal st ++ [CreateTable])))
    as [[loaded | e] s1]; [| discriminate].
  destruct (for_each files process_file []
              (mkStore (Some []) (indexes st1) (journal st1 ++ [CreateTable])))
    as [[loaded' | e'] s1']; cbn [fst snd] in Hfst, Htab; [| discriminate].
  injection Hfst as Hfst. subst loaded'.
  injection Hrun as Hn Hst.
  destruct (create_indexes_returns s1) as (s2 & Hidx & Htable & _).
  destruct (create_indexes_returns s1') as (s2' & Hidx' & Htable' & _).
  rewrite Hidx in Hst. cbn [snd] in Hst. subst st1.
  rewrite Hidx'. cbn [snd]. exists s2'. split; [rewrite Hn; reflexivity |].
  congruence.
Qed.

End TableOnly.

(** ** The fingerprint and the directory of databases *)

Section Fingerprint.
Context {B : Builtins} {E : Engine}.

(** The fingerprint reads the names and the sizes only. *)
Lemma get_file_hash_names_sizes (files1 files2 : list UploadedFile) :
  List.map name files1 = List.map name files2 ->
  List.map size files1 = List.map size files2 ->
  get_file_hash files1 = get_file_hash files2.
Proof.
  intros Hn Hs. unfold get_file_hash. do 2 f_equal.
  revert files2 Hn Hs. induction files1 as [| f1 rest1 IH]; intros [| f2 rest2] Hn Hs;
    cbn in Hn, Hs |- *; try discriminate; [reflexivity |].
  injection Hn as Hn1 Hn. injection Hs as Hs1 Hs.
  rewrite Hn1, Hs1. f_equal. apply IH; assumption.
Qed.

Lemma get_db_connection_insert (sid : string) (st : Store) (dbs : gmap string Store) :
  get_db_connection sid (<[sid := st]> dbs) = st.
Proof. unfold get_db_connection. rewrite lookup_insert_eq. reflexivity. Qed.

Lemma process_xml_files_stored (files : list UploadedFile) (sid : string)
    (dbs dbs1 : gmap string Store) (r : outcome nat) :
  process_xml_files files sid dbs = (r, dbs1) ->
  process_connection files (get_db_connection sid dbs)
    = (r, get_db_connection sid dbs1)
  /\ dbs1 !! sid = Some (get_db_connection sid dbs1).
Proof.
  unfold process_xml_files. intros Hrun. injection Hrun as Hr Hdbs. subst r dbs1.
  rewrite get_db_connection_insert, lookup_insert_eq.
  split; [| reflexivity]. apply surjective_pairing.
Qed.

End Fingerprint.

Section Idempotency.
Context {B : Builtins} {E : Engine}.

(** C1. When the database of the session id already holds rows, the run
    returns their count whatever the files are and leaves the directory of
    databases as it was, journal included: nothing is parsed, nothing
    inserted. So a second upload with the same names and sizes, after a first
    one that stored rows, returns the first count and changes nothing; and
    running the same files again always returns the same count and leaves the
    same rows, as many as the count. *)
Theorem load_is_idempotent :
  (forall files sid (dbs : gmap string Store) st rows,
      dbs !! sid = Some st -> table st = Some rows -> rows <> [] ->
      process_xml_files files sid dbs = (Ret (List.length rows), dbs))
  /\ (forall files1 files2 (dbs dbs1 : gmap string Store) n,
        List.map name files1 = List.map name files2 ->
        List.map size files1 = List.map size files2 ->
        process_xml_files files1 (get_file_hash files1) dbs = (Ret n, dbs1) ->
        (0 < n)%nat ->
        process_xml_files files2 (get_file_hash files2) dbs1 = (Ret n, dbs1))
  /\ (forall files sid (dbs dbs1 : gmap string Store) n,
        process_xml_files files sid dbs = (Ret n, dbs1) ->
        exists dbs2,
          process_xml_files files sid dbs1 = (Ret n, dbs2)
          /\ rows_of (get_db_connection sid dbs2) = rows_of (get_db_connection sid dbs1)
          /\ List.length (rows_of (get_db_connection sid dbs1)) = n).
Proof.
  assert (Hgate : forall files sid (dbs : gmap string Store) st rows,
      dbs !! sid = Some st -> table st = Some rows -> rows <> [] ->
      process_xml_files files sid dbs = (Ret (List.length rows), dbs)).
  { intros files sid dbs st rows Hsid Ht Hne.
    unfold process_xml_files, get_db_connection. rewrite Hsid.
    rewrite (process_connection_found files st rows Ht Hne). cbn [fst snd].
    rewrite (insert_id dbs sid st Hsid). reflexivity. }
  split; [exact Hgate |]. split.
  - intros files1 files2 dbs dbs1 n Hnames Hsizes Hrun Hn.
    destruct (process_xml_files_stored _ _ _ _ _ Hrun) as [Hcon Hsid].
    destruct (process_connection_count _ _ _ _ Hcon) as (rows & Ht & Hlen).
    rewrite <- (get_file_hash_names_sizes files1 files2 Hnames Hsizes), <- Hlen.
    apply (Hgate files2 _ dbs1 _ rows Hsid Ht).
    intros ->. cbn in Hlen. lia.
  - intros files sid dbs dbs1 n Hrun.
    destruct (process_xml_files_stored _ _ _ _ _ Hrun) as [Hcon Hsid].
    destruct (process_connection_count _ _ _ _ Hcon) as (rows & Ht & Hlen).
    destruct (process_connection_again _ _ _ _ Hcon) as (st2 & Hagain & Htable).
    exists (<[sid := st2]> dbs1). split; [| split].
    + unfold process_xml_files. rewrite Hagain. reflexivity.
    + rewrite get_db_connection_insert. unfold rows_of. rewrite Htable. reflexivity.
    + unfold rows_of. rewrite Ht. exact Hlen.
Qed.

End Idempotency.

Lemma load_is_idempotent_witness :
  let first := @process_xml_files plain_builtins lenient_engine [sample_file]
                 (@get_file_hash plain_builtins [sample_file]) ∅ in
  fst first = Ret 4%nat
  /\ @process_xml_files plain_builtins lenient_engine [sample_file]
       (@get_file_hash plain_builtins [sample_file]) (snd first)
     = (Ret 4%nat, snd first).
Proof.
  intros first.
  assert (Hfirst : fst first = Ret 4%nat) by (vm_compute; reflexivity).
  split; [exact Hfirst |].
  destruct (@load_is_idempotent plain_builtins lenient_engine) as (_ & Hsame & _).
  apply (Hsame [sample_file] [sample_file] ∅ (snd first) 4%nat eq_refl eq_refl).
  - rewrite <- Hfirst. apply surjective_pairing.
  - lia.
Defined.

(** ** The loader stores what the extractor yields *)

Section LoadsAll.
Context {B : Builtins} {E : Engine}.

Lemma executemany_ok (batch : list Row) (st : Store) (rows : list Row) :
  table st = Some rows -> Forall accepted batch ->
  exists st', executemany batch st = (Ret tt, st') /\ table st' = Some (rows ++ batch).
Proof.
  intros Ht Hall.
  pose proof (executemany_accepted batch st rows Ht Hall) as Hret.
  pose proof (executemany_ret batch st rows Ht Hret) as Htab.
  destruct (executemany batch st) as [r st']. cbn [fst snd] in Hret, Htab.
  subst r. exists st'. split; [reflexivity | exact Htab].
Qed.

Lemma append_row_ok (row : Row) (ls : Lists) (st : Store) :
  ready ls st -> accepted row ->
  exists ls' st',
    append_row row ls st = (Ret ls', st')
    /\ ready ls' st' /\ seen ls' = seen ls ++ [row].
Proof.
  intros [Ht Hb] Hrow. unfold append_row.
  assert (Hall : Forall accepted (batch_data ls ++ [row])).
  { apply List.Forall_app. split; [exact Hb | repeat constructor; exact Hrow]. }
  destruct (1000 <=? List.length (batch_data ls ++ [row]))%nat; cbn [bind ret M_monad].
  - destruct (executemany_ok _ st _ Ht Hall) as (st' & Hrun & Ht').
    rewrite Hrun. eexists; exists st'. split; [reflexivity |].
    unfold ready, seen. cbn. split; [split; [exact Ht' | constructor] |].
    rewrite app_nil_r, app_assoc. reflexivity.
  - eexists; exists st. split; [reflexivity |].
    unfold ready, seen. cbn. split; [split; [exact Ht | exact Hall] |].
    apply app_assoc.
Qed.

Lemma process_det_emit (fn : string) (cf : option string) (n : Z)
    (dh : option string) (s : pyval * Lists) (det : element) (st : Store)
    (row : Row) (v' : pyval) :
  extract_item fn cf n dh (fst s) det = Ret (Some (row, v')) ->
  process_det fn cf n dh s det st =
    match append_row row (snd s) st with
    | (Ret ls, st') => (Ret (v', ls), st')
    | (Raise e, st') => (Raise e, st')
    end.
Proof.
  intros Hx. unfold process_det, lift. cbn [bind ret M_monad]. rewrite Hx.
  destruct (append_row row (snd s) st) as [[ls | e] st']; reflexivity.
Qed.

Lemma process_det_skip (fn : string) (cf : option string) (n : Z)
    (dh : option string) (s : pyval * Lists) (det : element) (st : Store) :
  extract_item fn cf n dh (fst s) det = Ret None ->
  process_det fn cf n dh s det st = (Ret s, st).
Proof.
  intros Hx. unfold process_det, lift. cbn [bind ret M_monad]. rewrite Hx. reflexivity.
Qed.

Lemma det_loop_ok (fn : string) (cf : option string) (n : Z) (dh : option string)
    (dets : list element) :
  forall v ls rs st,
    det_records fn cf n dh v dets = Ret rs ->
    ready ls st -> Forall accepted rs ->
    exists s' st',
      for_each dets (process_det fn cf n dh) (v, ls) st = (Ret s', st')
      /\ ready (snd s') st' /\ seen (snd s') = seen ls ++ rs.
Proof.
  induction dets as [| det rest IH]; intros v ls rs st Hrec Hready Hacc;
    cbn [det_records for_each bind ret M_monad outcome_monad] in *.
  - injection Hrec as Hrs. subst rs. exists (v, ls), st.
    split; [reflexivity |]. split; [exact Hready |].
    symmetry. apply app_nil_r.
  - destruct (extract_item fn cf n dh v det) as [[[row v'] |] | e] eqn:Hx;
      [| | discriminate].
    + destruct (det_records fn cf n dh v' rest) as [rows | e] eqn:Hrest;
        [| discriminate].
      injection Hrec as Hrs. subst rs.
      apply List.Forall_cons_iff in Hacc as [Hrow Hrows].
      destruct (append_row_ok row ls st Hready Hrow) as (ls1 & st1 & Happ & Hready1 & Hseen1).
      destruct (IH v' ls1 rows st1 Hrest Hready1 Hrows) as (s' & st' & Hloop & Hready' & Hseen').
      exists s', st'. rewrite (process_det_emit fn cf n dh (v, ls) det st row v' Hx).
      cbn [snd]. rewrite Happ, Hloop. split; [reflexivity |].
      split; [exact Hready' |].
      rewrite Hseen', Hseen1, <- app_assoc. reflexivity.
    + destruct (IH v ls rs st Hrec Hready Hacc) as (s' & st' & Hloop & Hready' & Hseen').
      exists s', st'. rewrite (process_det_skip fn cf n dh (v, ls) det st Hx).
      rewrite Hloop. split; [reflexivity |]. split; assumption.
Qed.

Lemma process_fatura_ok (fn : string) (t fatura : element) (ls : Lists)
    (rs : list Row) (st : Store) :
  fatura_records fn t fatura = Ret rs ->
  ready ls st -> Forall accepted rs ->
  exists ls' st',
    process_fatura fn t ls fatura st = (Ret ls', st')
    /\ ready ls' st' /\ seen ls' = seen ls ++ rs.
Proof.
  unfold fatura_records, process_fatura, lift. cbn [bind ret M_monad outcome_monad].
  intros Hrec Hready Hacc.
  destruct (read_header t fatura) as [[h |] | e]; [| | discriminate].
  - destruct (det_loop_ok fn _ _ _ _ _ ls rs st Hrec Hready Hacc)
      as (s' & st' & Hloop & Hready' & Hseen').
    rewrite Hloop. exists (snd s'), st'. split; [reflexivity |]. split; assumption.
  - injection Hrec as Hrs. subst rs. exists ls, st.
    split; [reflexivity |]. split; [exact Hready |]. symmetry. apply app_nil_r.
Qed.

Lemma fatura_loop_ok (fn : string) (t : element) (faturas : list element) :
  forall ls rs st,
    concat_records (fatura_records fn t) faturas = Ret rs ->
    ready ls st -> Forall accepted rs ->
    exists ls' st',
      for_each faturas (process_fatura fn t) ls st = (Ret ls', st')
      /\ ready ls' st' /\ seen ls' = seen ls ++ rs.
Proof.
  induction faturas as [| fatura rest IH]; intros ls rs st Hrec Hready Hacc;
    cbn [concat_records for_each bind ret M_monad outcome_monad] in *.
  - injection Hrec as Hrs. subst rs. exists ls, st.
    split; [reflexivity |]. split; [exact Hready |]. symmetry. apply app_nil_r.
  - destruct (fatura_records fn t fatura) as [rows | e] eqn:Hf; [| discriminate].
    destruct (concat_records (fatura_records fn t) rest) as [more | e] eqn:Hrest;
      [| discriminate].
    injection Hrec as Hrs. subst rs.
    apply List.Forall_app in Hacc as [Hrows Hmore].
    destruct (process_fatura_ok fn t fatura ls rows st Hf Hready Hrows)
      as (ls1 & st1 & Hrun & Hready1 & Hseen1).
    destruct (IH ls1 more st1 eq_refl Hready1 Hmore)
      as (ls' & st' & Hloop & Hready' & Hseen').
    exists ls', st'. rewrite Hrun, Hloop. split; [reflexivity |].
    split; [exact Hready' |]. rewrite Hseen', Hseen1, <- app_assoc. reflexivity.
Qed.

Lemma process_file_ok (file : UploadedFile) (loaded rs : list Row) (st : Store) :
  file_records file = Ret rs ->
  table st = Some loaded -> Forall accepted rs ->
  exists st',
    process_file loaded file st = (Ret (loaded ++ rs), st')
    /\ table st' = Some (loaded ++ rs).
Proof.
  unfold file_records, process_file. intros Hrec Ht Hacc.
  destruct (tree file) as [t |]; [| discriminate].
  cbn [bind ret M_monad].
  destruct (fatura_loop_ok (name file) t _ (mkLists [] loaded) rs st Hrec)
    as (ls' & st' & Hloop & [Ht' Hb'] & Hseen'); [split; [exact Ht | constructor] | exact Hacc |].
  rewrite Hloop. unfold seen in Hseen'. cbn [batch_data dados_completos] in Hseen'.
  rewrite app_nil_r in Hseen'.
  destruct (batch_data ls') as [| r batch] eqn:Hbatch.
  - rewrite app_nil_r in Hseen'. exists st'. rewrite <- Hseen'.
    split; [reflexivity | exact Ht'].
  - destruct (executemany_ok (r :: batch) st' _ Ht' Hb') as (st'' & Hrun & Ht'').
    rewrite Hrun. exists st''. rewrite <- Hseen'. split; [reflexivity | exact Ht''].
Qed.

Lemma load_files_ok (files : list UploadedFile) :
  forall loaded rs st,
    records files = Ret rs ->
    table st = Some loaded -> Forall accepted rs ->
    exists st',
      for_each files process_file loaded st = (Ret (loaded ++ rs), st')
      /\ table st' = Some (loaded ++ rs).
Proof.
  unfold records.
  induction files as [| file rest IH]; intros loaded rs st Hrec Ht Hacc;
    cbn [concat_records for_each bind ret M_monad outcome_monad] in *.
  - injection Hrec as Hrs. subst rs. exists st. rewrite app_nil_r.
    split; [reflexivity | exact Ht].
  - destruct (file_records file) as [rows | e] eqn:Hf; [| discriminate].
    destruct (concat_records file_records rest) as [more | e] eqn:Hrest;
      [| discriminate].
    injection Hrec as Hrs. subst rs.
    apply List.Forall_app in Hacc as [Hrows Hmore].
    destruct (process_file_ok file loaded rows st Hf Ht Hrows) as (st1 & Hrun & Ht1).
    destruct (IH (loaded ++ rows) more st1 eq_refl Ht1 Hmore) as (st' & Hloop & Ht').
    exists st'. rewrite Hrun, Hloop, <- app_assoc.
    split; [reflexivity |]. rewrite <- app_assoc in Ht'. exact Ht'.
Qed.

(** C2. When the extractor yields the records [rs] for the uploaded files
    and the engine accepts each of them, a run on a new or empty table
    returns the number of records and leaves exactly [rs] in the table, in
    order: the flushes at 1000 records and the last flush of each file drop
    nothing and insert nothing twice. And any run that returns reports the
    number of rows the table holds. *)
Theorem batches_store_all (files : list UploadedFile) (rs : list Row) (st : Store) :
  records files = Ret rs ->
  Forall accepted rs ->
  gate_open st ->
  (exists st',
      process_connection files st = (Ret (List.length rs), st')
      /\ table st' = Some rs)
  /\ (forall n st', process_connection files st = (Ret n, st') ->
        List.length (rows_of st') = n).
Proof.
  intros Hrec Hacc Hopen. split.
  - rewrite (process_connection_open files st Hopen).
    destruct (load_files_ok files [] rs
                (mkStore (Some []) (indexes st) (journal st ++ [CreateTable]))
                Hrec eq_refl Hacc) as (st1 & Hloop & Ht1).
    rewrite Hloop. cbn [app] in *.
    destruct (create_indexes_returns st1) as (st2 & Hidx & Htable & _).
    rewrite Hidx. exists st2. split; [reflexivity | congruence].
  - intros n st' Hrun.
    destruct (process_connection_count files st st' n Hrun) as (rows & Ht & Hn).
    unfold rows_of. rewrite Ht. exact Hn.
Qed.

End LoadsAll.

Lemma batches_store_all_witness :
  exists st',
    @process_connection plain_builtins lenient_engine [large_file] empty_store
      = (Ret 2500%nat, st')
    /\ option_map (@List.length Row) (table st') = Some 2500%nat.
Proof.
  assert (Hlen : List.length large_rows = 2500%nat) by (vm_compute; reflexivity).
  destruct (@batches_store_all plain_builtins lenient_engine [large_file]
              large_rows empty_store) as [(st' & Hrun & Ht) _].
  - vm_compute. reflexivity.
  - apply List.Forall_forall. intros r _. reflexivity.
  - left. reflexivity.
  - exists st'. rewrite Hrun, Ht. cbn [option_map]. rewrite Hlen.
    split; reflexivity.
Defined.

(** The 2500 records reach the engine as batches of 1000, 1000 and 500. *)
Example large_file_batches :
  List.map (fun ev => match ev with Executemany batch => List.length batch | _ => 0%nat end)
    (journal (snd (@process_connection plain_builtins lenient_engine [large_file]
                     empty_store)))
  = [0; 1000; 1000; 500; 0; 0; 0; 0]%nat.
Proof. vm_compute. reflexivity. Qed.

(** ** Properties of every stored row *)

Section RowInvariant.
Context {B : Builtins} {E : Engine}.
Variable P : Row -> Prop.

Lemma load_files_rows (files : list UploadedFile) (loaded : list Row) :
  Forall (emits P) files ->
  hoare (fun st => Forall P (rows_of st)) (for_each files process_file loaded)
    (fun _ st' => Forall P (rows_of st')) (fun st' => Forall P (rows_of st')).
Proof.
  intros Hemit st Hst.
  pose proof (load_files_inv
                (fun batch _ st => Forall P (rows_of st) /\ Forall P batch)
                (fun st => Forall P (rows_of st)) P) as Hinv.
  specialize (Hinv ltac:(intros batch dados s [H _]; exact H)).
  specialize (Hinv ltac:(intros row batch dados s Hrow [H1 H2]; split;
                          [exact H1 | apply List.Forall_app; split;
                                      [exact H2 | repeat constructor; exact Hrow]])).
  assert (Hflush : forall batch dados : list Row, batch <> [] ->
            hoare (fun s => Forall P (rows_of s) /\ Forall P batch) (executemany batch)
              (fun _ s => Forall P (rows_of s) /\ Forall P [])
              (fun s => Forall P (rows_of s))).
  { intros batch dados _ s [H1 H2].
    destruct (executemany_prefix batch s) as (done & rest & Hb & Hrows).
    assert (Hall : Forall P (rows_of (snd (executemany batch s)))).
    { rewrite Hrows. apply List.Forall_app. split; [exact H1 |].
      rewrite Hb in H2. apply List.Forall_app in H2 as [H2 _]. exact H2. }
    destruct (executemany batch s) as [[[] | e] s']; cbn [snd] in Hall;
      [split; [exact Hall | constructor] | exact Hall]. }
  specialize (Hinv Hflush files loaded Hemit st (conj Hst (List.Forall_nil P))).
  destruct (for_each files process_file loaded st) as [[loaded' | e] st'];
    [destruct Hinv as [H _]; exact H | exact Hinv].
Qed.

(** A property of the records the files emit holds of every row of the
    table after the run, if it held before. *)
Lemma process_connection_rows (files : list UploadedFile) (st : Store) :
  Forall (emits P) files ->
  Forall P (rows_of st) ->
  Forall P (rows_of (snd (process_connection files st))).
Proof.
  intros Hemit Hst.
  destruct (gate_cases st) as [Hopen | (rows & Ht & Hne)].
  - rewrite (process_connection_open files st Hopen).
    pose proof (load_files_rows files [] Hemit
                  (mkStore (Some []) (indexes st) (journal st ++ [CreateTable]))
                  (List.Forall_nil P)) as Hload.
    destruct (for_each files process_file [] _) as [[loaded | e] st1];
      cbn [snd]; [| exact Hload].
    destruct (create_indexes_returns st1) as (st2 & Hidx & Htable & _).
    rewrite Hidx. cbn [snd]. unfold rows_of in *. rewrite Htable. exact Hload.
  - rewrite (process_connection_found files st rows Ht Hne). exact Hst.
Qed.

End RowInvariant.

Section CodeColumns.
Context {B : Builtins} {E : Engine}.

Lemma findtext_default (path : list step) (d : string) (elem : element) :
  exists s, findtext path (Some d) elem = Some s
            /\ (find path elem = None -> s = d).
Proof.
  unfold findtext. destruct (find path elem) as [el |].
  - eexists. split; [reflexivity | discriminate].
  - exists d. split; reflexivity.
Qed.

Lemma extract_item_codes (fn : string) (cf : option string) (n : Z)
    (dh : option string) (v : pyval) (det : element) (row : Row) (v' : pyval) :
  extract_item fn cf n dh v det = Ret (Some (row, v')) ->
  codes_not_null row.
Proof.
  intros Hx.
  destruct (extract_item_inv fn cf n dh v det row v' Hx)
    as (prod & t & vi & _ & _ & _ & _ & _ & _ & _ & Hcfop & _).
  destruct (findtext_default [Child (qn "CFOP")] "0000" prod) as (s & Hs & _).
  exists s, (ICMS_CODE row). unfold params. cbn.
  rewrite Hcfop, Hs. split; reflexivity.
Qed.

(** C8. Every row of the table after a run has text in its CFOP column and
    in its ICMS code column, provided the rows already there had; and a
    record takes the CFOP ["0000"] when the product block has no CFOP
    element, and the ICMS code ["-"] when no variant matches under the tax
    block. *)
Theorem persisted_codes_not_null (files : list UploadedFile) (st : Store) :
  Forall codes_not_null (rows_of st) ->
  Forall codes_not_null (rows_of (snd (process_connection files st)))
  /\ (forall fn cf n dh v det row v',
        extract_item fn cf n dh v det = Ret (Some (row, v')) ->
        exists prod t,
          find [Child (qn "prod")] det = Some prod
          /\ find [Child (qn "imposto")] det = Some t
          /\ (find [Child (qn "CFOP")] prod = None -> CFOP row = Some "0000")
          /\ (Forall (unmatched t) icms_tags -> ICMS_CODE row = "-")).
Proof.
  intros Hst. split.
  - apply process_connection_rows; [| exact Hst].
    apply List.Forall_forall. intros file _ t fatura h v det row v' _ _ Hx.
    exact (extract_item_codes _ _ _ _ _ _ _ _ Hx).
  - intros fn cf n dh v det row v' Hx.
    destruct (extract_item_inv fn cf n dh v det row v' Hx)
      as (prod & t & vi & Hprod & Himp & _ & _ & _ & _ & _ & Hcfop & _ & Hs & _).
    exists prod, t. split; [exact Hprod |]. split; [exact Himp |]. split.
    + intros Hnone. rewrite Hcfop. unfold findtext. rewrite Hnone. reflexivity.
    + intros Hnone. rewrite (icms_search_no_match icms_tags t Hnone) in Hs.
      injection Hs as _ Hcode. symmetry. exact Hcode.
Qed.

End CodeColumns.

Lemma persisted_codes_not_null_witness :
  Forall codes_not_null
    (rows_of (snd (@process_connection plain_builtins lenient_engine [sample_file]
                     empty_store))).
Proof.
  apply (@persisted_codes_not_null plain_builtins lenient_engine [sample_file]
           empty_store).
  cbn. constructor.
Defined.

(** ** The branch code *)

Section BranchCode.
Context {B : Builtins} {E : Engine}.

Lemma read_header_branch_code (t fatura : element) (h : Header) :
  read_header t fatura = Ret (Some h) ->
  h_codigo_filial h = findtext codigo_filial_path None t.
Proof.
  unfold read_header. intros Hh.
  destruct (find [Child "NFComVivo"] fatura) as [nf |]; [| discriminate].
  destruct (find [Self; Descendant (qn "ide")] nf) as [ide |]; [| discriminate].
  destruct (find [Child (qn "nNF")] ide) as [nNF_elem |]; [| discriminate].
  destruct (find [Child (qn "dhEmi")] ide) as [dhEmi_elem |]; [| discriminate].
  destruct (py_int (text nNF_elem)) as [z | e]; cbn in Hh; [| discriminate].
  injection Hh as Hh. subst h. reflexivity.
Qed.

(** C7, as the code has it. After a run on a new or empty table, every row
    carries the name of one of the uploaded files and, as branch code, the
    text of the first match of [.//sirius/codigo_filial] in that file's tree
    (the empty string when that element has no text, null when nothing
    matches): one value for all the invoices of the file. *)
Theorem branch_code_first_match (files : list UploadedFile) (st : Store) :
  gate_open st ->
  forall row, In row (rows_of (snd (process_connection files st))) ->
    from_first_match files row.
Proof.
  intros Hopen. apply List.Forall_forall.
  apply process_connection_rows.
  - apply List.Forall_forall. intros file Hin t fatura h v det row v' Ht Hh Hx.
    destruct (extract_item_inv _ _ _ _ _ _ _ _ Hx)
      as (prod & ti & vi & _ & _ & _ & Hfn & Hcf & _).
    exists file, t. split; [exact Hin |]. split; [exact Ht |]. split; [exact Hfn |].
    rewrite Hcf, (read_header_branch_code t fatura h Hh).
    unfold findtext, find, findall.
    destruct (iterfind codigo_filial_path t); reflexivity.
  - destruct Hopen as [Ht | Ht]; unfold rows_of; rewrite Ht; constructor.
Qed.

End BranchCode.

Lemma branch_code_first_match_witness :
  Forall (fun row => codigo_filial row = Some "001")
    (rows_of (snd (@process_connection plain_builtins lenient_engine [sample_file]
                     empty_store))).
Proof.
  apply List.Forall_forall. intros row Hin.
  destruct (@branch_code_first_match plain_builtins lenient_engine [sample_file]
              empty_store (or_introl eq_refl) row Hin)
    as (file & t & Hfile & Ht & _ & Hcode).
  destruct Hfile as [Hfile | []]. subst file.
  injection Ht as Ht. subst t. exact Hcode.
Defined.

(** C7 as stated fails: the sample file has the branch codes 001 and 002, in
    this order, and its rows carry 001, not the last match. *)
Lemma branch_code_last_match_refuted :
  ~ @branch_code_is_last_match plain_builtins lenient_engine [sample_file] empty_store.
Proof.
  unfold branch_code_is_last_match. intros Hlast.
  assert (Hcodes : List.map codigo_filial
            (rows_of (snd (@process_connection plain_builtins lenient_engine
                             [sample_file] empty_store)))
          = [Some "001"; Some "001"; Some "001"; Some "001"])
    by (vm_compute; reflexivity).
  destruct (rows_of _) as [| row rest]; [discriminate |].
  injection Hcodes as Hcode _.
  destruct (Hlast row (or_introl eq_refl)) as (file & t & Hfile & Ht & _ & Hc).
  destruct Hfile as [Hfile | []]. subst file.
  injection Ht as Ht. subst t. rewrite Hcode in Hc.
  vm_compute in Hc. discriminate.
Qed.

(** ** The indexes come last and cannot fail the run *)

Section IndexesLast.
Context {B : Builtins} {E : Engine}.

(** While the files are loaded the journal receives no index statement. *)
Lemma load_files_journal (files : list UploadedFile) (loaded : list Row)
    (j0 : list event) :
  let K := fun st => exists evs, journal st = j0 ++ evs /\ Forall before_indexes evs in
  hoare K (for_each files process_file loaded) (fun _ => K) K.
Proof.
  intros K.
  apply (load_files_inv (fun _ _ => K) K (fun _ => True)).
  - intros batch dados st H. exact H.
  - intros row batch dados st _ H. exact H.
  - intros batch dados _ st (evs & Hj & Hevs).
    destruct (executemany_frame batch st) as [_ Hj'].
    assert (HK : K (snd (executemany batch st))).
    { exists (evs ++ [Executemany batch]). split.
      - rewrite Hj', Hj, app_assoc. reflexivity.
      - apply List.Forall_app. split; [exact Hevs |].
        repeat constructor. intros []. }
    destruct (executemany batch st) as [[[] | e] st']; exact HK.
  - apply List.Forall_forall. intros file _ t fatura h v det row v' _ _ _. exact I.
Qed.

(** C9. The statements a run adds to the journal are the table creation and
    the inserts, followed by the index creations: no batch is inserted after
    an index statement. An index that exists is left as it is, together with
    the table. And whatever the engine does on the index statements, a run
    whose files were loaded returns the number of records loaded and the
    table keeps them all. *)
Theorem indexes_last_and_harmless :
  (forall files st,
      exists evs idx,
        journal (snd (process_connection files st)) = journal st ++ evs ++ idx
        /\ Forall before_indexes evs /\ Forall is_create_index idx)
  /\ (forall name st,
        In name (indexes st) ->
        indexes (snd (create_index name st)) = indexes st
        /\ table (snd (create_index name st)) = table st)
  /\ (forall st, exists st', create_indexes st = (Ret tt, st') /\ table st' = table st)
  /\ (forall files st loaded,
        gate_open st ->
        fst (for_each files process_file [] (snd (create_table st))) = Ret loaded ->
        fst (process_connection files st) = Ret (List.length loaded)
        /\ table (snd (process_connection files st)) = Some loaded).
Proof.
  split; [| split; [| split]].
  - intros files st.
    destruct (gate_cases st) as [Hopen | (rows & Ht & Hne)].
    + rewrite (process_connection_open files st Hopen).
      pose proof (load_files_journal files [] (journal st)
                    (mkStore (Some []) (indexes st) (journal st ++ [CreateTable])))
        as Hload.
      cbn zeta in Hload.
      specialize (Hload ltac:(exists [CreateTable]; split;
                               [reflexivity | repeat constructor; intros []])).
      destruct (for_each files process_file [] _) as [[loaded | e] st1]; cbn [snd].
      * destruct Hload as (evs & Hj & Hevs).
        destruct (create_indexes_returns st1) as (st2 & Hidx & _ & idx & Hj2 & Hidxs).
        rewrite Hidx. cbn [snd]. exists evs, idx.
        split; [rewrite Hj2, Hj, app_assoc; reflexivity |]. split; assumption.
      * destruct Hload as (evs & Hj & Hevs). exists evs, [].
        split; [rewrite app_nil_r; exact Hj |]. split; [exact Hevs | constructor].
    + rewrite (process_connection_found files st rows Ht Hne). cbn [snd].
      exists [], []. split; [rewrite app_nil_r; reflexivity |].
      split; constructor.
  - intros name st Hin. split.
    + apply create_index_exists. exact Hin.
    + apply create_index_frame.
  - intros st. destruct (create_indexes_returns st) as (st' & Hrun & Ht & _).
    exists st'. split; assumption.
  - intros files st loaded Hopen Hload.
    rewrite (process_connection_open files st Hopen).
    rewrite (create_table_open st Hopen) in Hload. cbn [snd] in Hload.
    pose proof (load_files_table files []
                  (mkStore (Some []) (indexes st) (journal st ++ [CreateTable]))
                  eq_refl) as Htab.
    destruct (for_each files process_file [] _) as [[loaded' | e] st1];
      cbn [fst] in Hload; [| discriminate].
    injection Hload as Hload. subst loaded'. cbn [fst snd].
    split; [reflexivity |].
    destruct (create_indexes_returns st1) as (st2 & Hidx & Htable & _).
    rewrite Hidx. cbn [snd]. congruence.
Qed.

End IndexesLast.

(** On an engine where every index creation fails, the sample file is
    loaded and counted all the same, and no index exists afterwards. *)
Lemma indexes_last_and_harmless_witness :
  let run := @process_connection plain_builtins no_index_engine [sample_file]
               empty_store in
  fst run = Ret 4%nat
  /\ option_map (@List.length Row) (table (snd run)) = Some 4%nat
  /\ indexes (snd run) = [].
Proof.
  intros run.
  destruct (@indexes_last_and_harmless plain_builtins no_index_engine)
    as (_ & _ & _ & Hswallow).
  destruct (Hswallow [sample_file] empty_store
              (returned (@records plain_builtins [sample_file]))
              (or_introl eq_refl)) as [Hcount Htable].
  - vm_compute. reflexivity.
  - subst run. split; [| split].
    + rewrite Hcount. vm_compute. reflexivity.
    + rewrite Htable. vm_compute. reflexivity.
    + vm_compute. reflexivity.
Defined.

(** ** The invoice total *)

Section InvoiceTotal.
Context {B : Builtins}.

(** Coercing a value [safe_float] returned: a float equal to zero is false
    for Python and comes back as [None]. *)
Lemma safe_float_again (x : option float) :
  safe_float (of_float x) =
    Ret (match x with
         | Some f => if PrimFloat.eqb f 0%float then None else Some f
         | None => None
         end).
Proof.
  destruct x as [f |]; [| reflexivity].
  unfold safe_float. cbn. destruct (PrimFloat.eqb f 0%float); reflexivity.
Qed.

(** When the coerced total is null or a float other than zero, every record
    of the invoice carries it. *)
Lemma det_records_share_total (fn : string) (cf : option string) (n : Z)
    (dh : option string) (x : option float) (dets : list element) :
  safe_float (of_float x) = Ret x ->
  forall v rs,
    safe_float v = Ret x ->
    det_records fn cf n dh v dets = Ret rs ->
    Forall (fun row => vNF row = x) rs.
Proof.
  intros Hkeep. induction dets as [| det rest IH]; intros v rs Hv Hrec;
    cbn [det_records bind outcome_monad] in Hrec.
  - injection Hrec as Hrs. subst rs. constructor.
  - destruct (extract_item fn cf n dh v det) as [[[row v'] |] | e] eqn:Hx;
      [| | discriminate].
    + destruct (det_records fn cf n dh v' rest) as [rows | e] eqn:Hrest;
        [| discriminate].
      injection Hrec as Hrs. subst rs.
      destruct (extract_item_inv _ _ _ _ _ _ _ _ Hx)
        as (prod & t & vi & _ & _ & Hv' & _ & _ & _ & _ & _ & Hrow & _).
      assert (Hx' : vNF row = x) by congruence.
      constructor; [exact Hx' |].
      apply (IH v' rows); [| exact Hrest].
      rewrite Hv', Hx'. exact Hkeep.
    + apply (IH v rs Hv Hrec).
Qed.

End InvoiceTotal.

(** C3, on the code. The second invoice of the sample file has the total
    ["0"] and two line items: the first record carries 0.0, the second null,
    because line 201 coerces the variable [vNF] again for each item and a
    float equal to zero is false. The first invoice, with the total
    ["100.00"], carries 100.0 on both records. *)
Theorem invoice_total_zero_lost :
  List.map (fun row => (nNF row, vNF row))
    (rows_of (snd (@process_connection plain_builtins lenient_engine [sample_file]
                     empty_store)))
  = [ (42%Z, Some 100%float); (42%Z, Some 100%float);
      (43%Z, Some 0%float); (43%Z, None) ].
Proof. vm_compute. reflexivity. Qed.

(** ** Envelopes that are skipped, and the one that is not *)

Section Envelopes.
Context {B : Builtins} {E : Engine}.

Lemma read_header_no_core (t fatura : element) :
  find [Child "NFComVivo"] fatura = None ->
  read_header t fatura = Raise AttributeError.
Proof. intros H. unfold read_header. rewrite H. reflexivity. Qed.

(** With the [NFComVivo] child present, an envelope without identification
    block, without invoice number or issue timestamp element, or with an
    invoice number [int] refuses, is passed over. *)
Lemma read_header_skips (t fatura nf : element) :
  find [Child "NFComVivo"] fatura = Some nf ->
  (find [Self; Descendant (qn "ide")] nf = None
   \/ exists ide,
        find [Self; Descendant (qn "ide")] nf = Some ide
        /\ (find [Child (qn "nNF")] ide = None
            \/ find [Child (qn "dhEmi")] ide = None
            \/ exists nNF_elem e,
                 find [Child (qn "nNF")] ide = Some nNF_elem
                 /\ py_int (text nNF_elem) = Raise e)) ->
  read_header t fatura = Ret None.
Proof.
  intros Hnf Hcases. unfold read_header. rewrite Hnf.
  destruct Hcases as [Hide | (ide & Hide & Hcases)]; rewrite Hide; [reflexivity |].
  destruct Hcases as [HnNF | [Hdh | (nNF_elem & e & HnNF & Hint)]].
  - rewrite HnNF. reflexivity.
  - rewrite Hdh. destruct (find [Child (qn "nNF")] ide); reflexivity.
  - rewrite HnNF. destruct (find [Child (qn "dhEmi")] ide); [| reflexivity].
    rewrite Hint. reflexivity.
Qed.

(** A skipped envelope leaves the lists and the database as they were, and
    the loop goes on; an envelope whose header raises ends the loop. *)
Lemma process_fatura_header (fn : string) (t : element) (ls : Lists)
    (fatura : element) (st : Store) :
  (read_header t fatura = Ret None ->
     process_fatura fn t ls fatura st = (Ret ls, st))
  /\ (forall e, read_header t fatura = Raise e ->
        process_fatura fn t ls fatura st = (Raise e, st)).
Proof.
  unfold process_fatura, lift. cbn [bind ret M_monad].
  split; [intros H | intros e H]; rewrite H; reflexivity.
Qed.

End Envelopes.

(** C6, on the code. The first envelope of [headless_file] has no
    [NFComVivo] child: the run ends with [AttributeError], and the record of
    the second, well-formed envelope is never stored. *)
Theorem missing_core_raises :
  let run := @process_connection plain_builtins lenient_engine [headless_file]
               empty_store in
  fst run = Raise AttributeError
  /\ table (snd run) = Some []
  /\ @file_records plain_builtins
       (mkFile "b.xml" 10 (Some (node "root" [fatura_elem "42" "100.00" [det_elem "1" []]])))
     <> Ret [].
Proof.
  vm_compute. split; [reflexivity |]. split; [reflexivity | discriminate].
Qed.

(** * Further properties of the code *)

(** ** Fields of a line item *)

Lemma find_two_steps_none (a b : string) (elem : element) :
  find [Child a] elem = None -> find [Child a; Child b] elem = None.
Proof.
  unfold find, iterfind. cbn [fold_left].
  destruct (select (Child a) [elem]) as [| x rest]; [reflexivity | discriminate].
Qed.


Section ItemFields.
Context {B : Builtins}.

Ltac run_safe_floats :=
  repeat match goal with
  | |- context [safe_float ?x] =>
      let r := fresh "r" in
      let H := fresh "Hr" in
      destruct (safe_float_returns x) as [r H]; rewrite !H; cbn [bind outcome_monad]
  end.

(** The fields a record takes from the item itself *)
Lemma extract_item_fields (fn : string) (cf : option string) (n : Z)
    (dh : option string) (v : pyval) (det prod t : element) :
  find [Child (qn "prod")] det = Some prod ->
  find [Child (qn "imposto")] det = Some t ->
  exists row v',
    extract_item fn cf n dh v det = Ret (Some (row, v'))
    /\ nItem row = get "nItem" (attrib det)
    /\ cClass row =
         (if truthy (of_str (findtext [Child (qn "cClass")] None prod))
          then option_map (substring 0 3) (findtext [Child (qn "cClass")] None prod)
          else None)
    /\ indicador_devolucao row
         = findtext [Child (qn "indDevolucao")] (Some "0") t
    /\ ind_sem_cst row = findtext [Child (qn "indSemCST")] (Some "-") t
    /\ pis_cst row = text_of (find [Child (qn "PIS"); Child (qn "CST")] t)
    /\ cofins_cst row = text_of (find [Child (qn "COFINS"); Child (qn "CST")] t)
    /\ safe_float (of_str (text_of (find [Child (qn "PIS"); Child (qn "vBC")] t)))
         = Ret (pis_vbc row)
    /\ safe_float (of_str (text_of (find [Child (qn "COFINS"); Child (qn "vBC")] t)))
         = Ret (cofins_vbc row).
Proof.
  intros Hprod Himp. unfold extract_item. rewrite Hprod, Himp.
  destruct (icms_search_cases t) as [[_ Hs] | (e & code & Hs & _)];
    rewrite Hs; cbn [bind outcome_monad fst snd]; run_safe_floats;
    (match goal with
     | |- exists row v', Ret (Some (?r, ?w)) = _ /\ _ => exists r, w
     end);
    cbn [nItem cClass indicador_devolucao ind_sem_cst pis_cst cofins_cst
         pis_vbc cofins_vbc];
    repeat (split; [first [reflexivity | assumption] |]);
    first [reflexivity | assumption].
Qed.


(** A tax block without [PIS] (or [COFINS]) child gives null for both
    fields read from it, and the return indicator and no-CST indicator are
    never null: they default to ["0"] and ["-"] when their element is
    absent. *)
Theorem tax_block_optional_fields (fn : string) (cf : option string) (n : Z)
    (dh : option string) (v : pyval) (det : element) (row : Row) (v' : pyval) :
  extract_item fn cf n dh v det = Ret (Some (row, v')) ->
  exists t,
    find [Child (qn "imposto")] det = Some t
    /\ (find [Child (qn "PIS")] t = None -> pis_cst row = None /\ pis_vbc row = None)
    /\ (find [Child (qn "COFINS")] t = None ->
          cofins_cst row = None /\ cofins_vbc row = None)
    /\ (exists s, indicador_devolucao row = Some s
          /\ (find [Child (qn "indDevolucao")] t = None -> s = "0"))
    /\ (exists s, ind_sem_cst row = Some s
          /\ (find [Child (qn "indSemCST")] t = None -> s = "-")).
Proof.
  intros Hx.
  destruct (extract_item_inv _ _ _ _ _ _ _ _ Hx) as (prod & t & vi & Hprod & Himp & _).
  destruct (extract_item_fields fn cf n dh v det prod t Hprod Himp)
    as (row' & w & Hx' & _ & _ & Hdev & Hsem & Hpc & Hcc & Hpv & Hcv).
  rewrite Hx' in Hx. injection Hx as Hrow _. subst row'.
  exists t. split; [exact Himp |]. split; [| split; [| split]].
  - intros Hnone.
    rewrite (find_two_steps_none _ (qn "CST") t Hnone) in Hpc.
    rewrite (find_two_steps_none _ (qn "vBC") t Hnone) in Hpv.
    cbn in Hpc, Hpv. injection Hpv as Hpv. split; [exact Hpc | symmetry; exact Hpv].
  - intros Hnone.
    rewrite (find_two_steps_none _ (qn "CST") t Hnone) in Hcc.
    rewrite (find_two_steps_none _ (qn "vBC") t Hnone) in Hcv.
    cbn in Hcc, Hcv. injection Hcv as Hcv. split; [exact Hcc | symmetry; exact Hcv].
  - destruct (findtext_default [Child (qn "indDevolucao")] "0" t) as (s & Hs & Hd).
    exists s. split; [congruence | exact Hd].
  - destruct (findtext_default [Child (qn "indSemCST")] "-" t) as (s & Hs & Hd).
    exists s. split; [congruence | exact Hd].
Qed.

Lemma det_records_items (fn : string) (cf : option string) (n : Z)
    (dh : option string) (dets : list element) :
  forall v rs,
    det_records fn cf n dh v dets = Ret rs ->
    List.map nItem rs
      = List.map (fun det => get "nItem" (attrib det)) (List.filter has_blocks dets).
Proof.
  induction dets as [| det rest IH]; intros v rs Hrec;
    cbn [det_records bind outcome_monad] in Hrec.
  - injection Hrec as Hrs. subst rs. reflexivity.
  - cbn [List.filter]. unfold has_blocks at 1.
    destruct (find [Child (qn "prod")] det) as [prod |] eqn:Hprod.
    + destruct (find [Child (qn "imposto")] det) as [t |] eqn:Himp.
      * destruct (extract_item_fields fn cf n dh v det prod t Hprod Himp)
          as (row & w & Hx & Hitem & _).
        rewrite Hx in Hrec.
        destruct (det_records fn cf n dh w rest) as [rows | e] eqn:Hrest;
          [| discriminate].
        injection Hrec as Hrs. subst rs. cbn [List.map].
        rewrite Hitem, (IH w rows Hrest). reflexivity.
      * rewrite (extract_item_skips fn cf n dh v det (or_intror Himp)) in Hrec.
        apply (IH v rs Hrec).
    + rewrite (extract_item_skips fn cf n dh v det (or_introl Hprod)) in Hrec.
      apply (IH v rs Hrec).
Qed.

(** The records of an invoice are those of its line items that have both a
    product block and a tax block, one each and in document order: an item
    without one of the blocks is passed over and the items after it are
    still read. *)
Theorem items_without_blocks_dropped (fn : string) (cf : option string) (n : Z)
    (dh : option string) (dets : list element) (v : pyval) (rs : list Row) :
  det_records fn cf n dh v dets = Ret rs ->
  List.map nItem rs
    = List.map (fun det => get "nItem" (attrib det)) (List.filter has_blocks dets).
Proof. apply det_records_items. Qed.

End ItemFields.


Lemma tax_block_optional_fields_witness :
  exists row w,
    @extract_item plain_builtins "a.xml" None 42%Z None PyNone (det_elem "1" [])
      = Ret (Some (row, w))
    /\ pis_cst row = None /\ pis_vbc row = None.
Proof.
  assert (Hrun : exists row w,
            @extract_item plain_builtins "a.xml" None 42%Z None PyNone
              (det_elem "1" []) = Ret (Some (row, w)))
    by (vm_compute; eexists; eexists; reflexivity).
  destruct Hrun as (row & w & Hrun).
  destruct (@tax_block_optional_fields plain_builtins "a.xml" None 42%Z None
              PyNone (det_elem "1" []) row w Hrun) as (t & Himp & Hpis & _).
  injection Himp as Himp. subst t.
  exists row, w. split; [exact Hrun |]. apply Hpis. reflexivity.
Defined.

Lemma items_without_blocks_dropped_witness :
  List.map nItem
    (returned (@det_records plain_builtins "a.xml" None 42%Z None PyNone
                 [det_elem "1" []; node (qn "det") []; det_elem "3" []]))
  = [Some "1"; Some "3"].
Proof.
  rewrite (@items_without_blocks_dropped plain_builtins "a.xml" None 42%Z None
             [det_elem "1" []; node (qn "det") []; det_elem "3" []] PyNone
             (returned (@det_records plain_builtins "a.xml" None 42%Z None PyNone
                          [det_elem "1" []; node (qn "det") []; det_elem "3" []]))).
  - reflexivity.
  - vm_compute. reflexivity.
Defined.

(** ** The records of an invoice and of a file *)

Lemma concat_records_returns {A} (f : A -> outcome (list Row)) (l : list A) :
  (forall x, In x l -> exists rs, f x = Ret rs) ->
  exists rs, concat_records f l = Ret rs.
Proof.
  induction l as [| x rest IH]; intros Hall; cbn [concat_records bind outcome_monad].
  - eexists. reflexivity.
  - destruct (Hall x (or_introl eq_refl)) as [rows Hx]. rewrite Hx.
    destruct IH as [more Hrest]; [intros y Hy; apply Hall; right; exact Hy |].
    rewrite Hrest. eexists. reflexivity.
Qed.

Lemma concat_records_raises {A} (f : A -> outcome (list Row)) (l : list A) (e : exn) :
  concat_records f l = Raise e -> exists x, In x l /\ f x = Raise e.
Proof.
  induction l as [| x rest IH]; cbn [concat_records bind outcome_monad];
    [discriminate |].
  destruct (f x) as [rows | e1] eqn:Hx.
  - destruct (concat_records f rest) as [more | e2]; [discriminate |].
    intros He. destruct (IH He) as (y & Hy & Hfy).
    exists y. split; [right; exact Hy | exact Hfy].
  - intros He. injection He as He. subst e1.
    exists x. split; [left; reflexivity | exact Hx].
Qed.

Lemma concat_records_app {A} (f : A -> outcome (list Row)) (l1 l2 : list A)
    (rs1 rs2 : list Row) :
  concat_records f l1 = Ret rs1 ->
  concat_records f l2 = Ret rs2 ->
  concat_records f (l1 ++ l2) = Ret (rs1 ++ rs2).
Proof.
  revert rs1. induction l1 as [| x rest IH]; intros rs1 H1 H2;
    cbn [concat_records bind outcome_monad app] in *.
  - injection H1 as H1. subst rs1. exact H2.
  - destruct (f x) as [rows | e]; [| discriminate].
    destruct (concat_records f rest) as [more | e]; [| discriminate].
    injection H1 as H1. subst rs1.
    rewrite (IH more eq_refl H2), app_assoc. reflexivity.
Qed.

Section InvoiceRecords.
Context {B : Builtins}.

Lemma det_records_returns (fn : string) (cf : option string) (n : Z)
    (dh : option string) (dets : list element) :
  forall v, exists rs, det_records fn cf n dh v dets = Ret rs.
Proof.
  induction dets as [| det rest IH]; intros v; cbn [det_records bind outcome_monad].
  - eexists. reflexivity.
  - destruct (extract_item_returns fn cf n dh v det) as [[[row w] |] Hx]; rewrite Hx.
    + destruct (IH w) as [rows Hrest]. rewrite Hrest. eexists. reflexivity.
    + apply IH.
Qed.

Lemma det_records_header_fields (fn : string) (cf : option string) (n : Z)
    (dh : option string) (dets : list element) :
  forall v rs,
    det_records fn cf n dh v dets = Ret rs ->
    Forall (fun row => filename row = fn /\ codigo_filial row = cf
                       /\ nNF row = n /\ dhEmi row = dh) rs.
Proof.
  induction dets as [| det rest IH]; intros v rs Hrec;
    cbn [det_records bind outcome_monad] in Hrec.
  - injection Hrec as Hrs. subst rs. constructor.
  - destruct (extract_item fn cf n dh v det) as [[[row w] |] | e] eqn:Hx;
      [| | discriminate].
    + destruct (det_records fn cf n dh w rest) as [rows | e] eqn:Hrest;
        [| discriminate].
      injection Hrec as Hrs. subst rs.
      destruct (extract_item_inv _ _ _ _ _ _ _ _ Hx)
        as (prod & t & vi & _ & _ & _ & H1 & H2 & H3 & H4 & _).
      constructor; [repeat split; assumption | apply (IH w rows Hrest)].
    + apply (IH v rs Hrec).
Qed.

(** The records of one invoice: the first carries the coerced total; the
    others carry it too when it is null or a float other than zero, and null
    when it is a float equal to zero. *)
Theorem invoice_total_across_items (fn : string) (cf : option string) (n : Z)
    (dh : option string) (dets : list element) (v : pyval) (x : option float)
    (rs : list Row) :
  safe_float v = Ret x ->
  det_records fn cf n dh v dets = Ret rs ->
  match rs with
  | [] => True
  | first :: rest =>
      vNF first = x
      /\ Forall (fun row =>
                   vNF row = match x with
                             | Some f => if PrimFloat.eqb f 0%float then None else Some f
                             | None => None
                             end) rest
  end.
Proof.
  revert v x rs. induction dets as [| det others IH]; intros v x rs Hv Hrec;
    cbn [det_records bind outcome_monad] in Hrec.
  - injection Hrec as Hrs. subst rs. exact I.
  - destruct (extract_item fn cf n dh v det) as [[[row w] |] | e] eqn:Hx;
      [| | discriminate].
    + destruct (det_records fn cf n dh w others) as [rows | e] eqn:Hrest;
        [| discriminate].
      injection Hrec as Hrs. subst rs.
      destruct (extract_item_inv _ _ _ _ _ _ _ _ Hx)
        as (prod & t & vi & _ & _ & Hw & _ & _ & _ & _ & _ & Hrow & _).
      assert (Hfirst : vNF row = x) by congruence.
      split; [exact Hfirst |].
      apply (det_records_share_total fn cf n dh _ others) with (v := w);
        [| | exact Hrest].
      * rewrite safe_float_again. destruct x as [f |]; [| reflexivity].
        destruct (PrimFloat.eqb f 0%float) eqn:Hz; [reflexivity |].
        rewrite Hz. reflexivity.
      * rewrite Hw, Hfirst. apply safe_float_again.
    + apply (IH v x rs Hv Hrec).
Qed.

(** An envelope with an identification block, an invoice number [int]
    accepts and a timestamp element is read, also when the timestamp element
    has no text: each of its records carries the file name, the number and
    the timestamp text (null when there is none), and there is one record
    for each line item that has both blocks. *)
Theorem header_fields_on_records (fn : string)
    (t fatura nf ide nNF_elem dhEmi_elem : element) (z : Z) :
  find [Child "NFComVivo"] fatura = Some nf ->
  find [Self; Descendant (qn "ide")] nf = Some ide ->
  find [Child (qn "nNF")] ide = Some nNF_elem ->
  find [Child (qn "dhEmi")] ide = Some dhEmi_elem ->
  py_int (text nNF_elem) = Ret z ->
  exists rs,
    fatura_records fn t fatura = Ret rs
    /\ Forall (fun row => filename row = fn /\ nNF row = z
                          /\ dhEmi row = text dhEmi_elem) rs
    /\ List.length rs
         = List.length
             (List.filter has_blocks (findall [Self; Descendant (qn "det")] fatura)).
Proof.
  intros Hnf Hide HnNF Hdh Hint.
  unfold fatura_records, read_header. rewrite Hnf, Hide, HnNF, Hdh, Hint.
  cbn [bind outcome_monad try_except h_codigo_filial h_nNF h_dhEmi h_vNF].
  match goal with
  | |- exists rs, det_records ?a ?b ?c ?d ?v ?l = _ /\ _ =>
      destruct (det_records_returns a b c d l v) as [rs Hrec];
      pose proof (det_records_header_fields a b c d l v rs Hrec) as Hfields;
      pose proof (det_records_items a b c d l v rs Hrec) as Hitems
  end.
  exists rs. split; [exact Hrec |]. split.
  - eapply List.Forall_impl; [| exact Hfields].
    intros row (H1 & _ & H3 & H4). repeat split; assumption.
  - rewrite <- (List.length_map nItem rs), Hitems, List.length_map. reflexivity.
Qed.

Lemma fatura_records_cases (fn : string) (t fatura : element) :
  (find [Child "NFComVivo"] fatura = None
   /\ fatura_records fn t fatura = Raise AttributeError)
  \/ (find [Child "NFComVivo"] fatura <> None
      /\ exists rs, fatura_records fn t fatura = Ret rs).
Proof.
  unfold fatura_records, read_header.
  destruct (find [Child "NFComVivo"] fatura) as [nf |];
    [right; split; [discriminate |] | left; split; reflexivity].
  destruct (find [Self; Descendant (qn "ide")] nf) as [ide |];
    [| eexists; reflexivity].
  destruct (find [Child (qn "nNF")] ide) as [nNF_elem |]; [| eexists; reflexivity].
  destruct (find [Child (qn "dhEmi")] ide) as [dhEmi_elem |]; [| eexists; reflexivity].
  destruct (py_int (text nNF_elem)) as [z | e];
    cbn [bind outcome_monad try_except]; [| eexists; reflexivity].
  apply det_records_returns.
Qed.

(** Extraction ends with an exception only for a file lxml rejects
    ([XMLSyntaxError]) or for an envelope without [NFComVivo] child
    ([AttributeError]); no text of a field can make it fail. When every file
    parses and every envelope has that child, it returns. *)
Theorem extraction_errors :
  (forall files e,
      records files = Raise e ->
      exists file,
        In file files
        /\ ((tree file = None /\ e = XMLSyntaxError)
            \/ (exists t fatura,
                  tree file = Some t
                  /\ In fatura (findall [Child "Fatura"] t)
                  /\ find [Child "NFComVivo"] fatura = None
                  /\ e = AttributeError)))
  /\ (forall files,
        Forall (fun file =>
                  exists t, tree file = Some t
                    /\ Forall (fun fatura => find [Child "NFComVivo"] fatura <> None)
                         (findall [Child "Fatura"] t)) files ->
        exists rs, records files = Ret rs).
Proof.
  split.
  - intros files e Hraise. unfold records in Hraise.
    destruct (concat_records_raises _ _ _ Hraise) as (file & Hin & Hfile).
    exists file. split; [exact Hin |]. unfold file_records in Hfile.
    destruct (tree file) as [t |].
    + right. destruct (concat_records_raises _ _ _ Hfile) as (fatura & Hf & Hfat).
      exists t, fatura. split; [reflexivity |]. split; [exact Hf |].
      destruct (fatura_records_cases (name file) t fatura)
        as [[Hnone Hr] | [_ [rs Hr]]]; rewrite Hr in Hfat.
      * injection Hfat as He. split; [exact Hnone | symmetry; exact He].
      * discriminate.
    + left. injection Hfile as He. split; [reflexivity | symmetry; exact He].
  - intros files Hall. unfold records. apply concat_records_returns.
    intros file Hin. rewrite List.Forall_forall in Hall.
    destruct (Hall file Hin) as (t & Ht & Hcore).
    unfold file_records. rewrite Ht. apply concat_records_returns.
    intros fatura Hf. rewrite List.Forall_forall in Hcore.
    destruct (fatura_records_cases (name file) t fatura) as [[Hnone _] | [_ Hr]];
      [exfalso; apply (Hcore fatura Hf); exact Hnone | exact Hr].
Qed.

End InvoiceRecords.

Lemma invoice_total_across_items_witness :
  List.map vNF
    (returned (@det_records plain_builtins "a.xml" None 43%Z None (PyStr "0")
                 [det_elem "1" []; det_elem "2" []; det_elem "3" []]))
  = [Some 0%float; None; None].
Proof.
  pose proof (@invoice_total_across_items plain_builtins "a.xml" None 43%Z None
                [det_elem "1" []; det_elem "2" []; det_elem "3" []]
                (PyStr "0") (Some 0%float)
                (returned (@det_records plain_builtins "a.xml" None 43%Z None (PyStr "0")
                             [det_elem "1" []; det_elem "2" []; det_elem "3" []]))
                eq_refl) as H.
  assert (Hlen : List.length
            (returned (@det_records plain_builtins "a.xml" None 43%Z None (PyStr "0")
                         [det_elem "1" []; det_elem "2" []; det_elem "3" []])) = 3%nat)
    by (vm_compute; reflexivity).
  specialize (H ltac:(vm_compute; reflexivity)).
  destruct (returned _) as [| r1 [| r2 [| r3 [| r4 rest]]]]; try discriminate.
  destruct H as [H1 Hrest].
  apply List.Forall_cons_iff in Hrest as [H2 Hrest].
  apply List.Forall_cons_iff in Hrest as [H3 _].
  cbn [List.map]. rewrite H1, H2, H3. reflexivity.
Defined.

Lemma header_fields_on_records_witness :
  exists rs,
    @fatura_records plain_builtins "a.xml" (node "root" [undated_fatura]) undated_fatura
      = Ret rs
    /\ Forall (fun row => filename row = "a.xml" /\ nNF row = 7%Z /\ dhEmi row = None) rs
    /\ List.length rs = 1%nat.
Proof.
  apply (@header_fields_on_records plain_builtins "a.xml"
           (node "root" [undated_fatura]) undated_fatura
           (node "NFComVivo"
              [ node (qn "ide") [leaf (qn "nNF") "7"; node (qn "dhEmi") []];
                det_elem "1" [] ])
           (node (qn "ide") [leaf (qn "nNF") "7"; node (qn "dhEmi") []])
           (leaf (qn "nNF") "7") (node (qn "dhEmi") []) 7%Z);
    reflexivity.
Defined.

Lemma extraction_errors_witness :
  exists rs, @records plain_builtins [sample_file] = Ret rs.
Proof.
  destruct (@extraction_errors plain_builtins) as [_ Hreturns].
  apply Hreturns. constructor; [| constructor].
  exists sample_tree. split; [reflexivity |].
  apply List.Forall_forall. intros fatura Hin. vm_compute in Hin.
  destruct Hin as [Hin | [Hin | []]]; subst fatura; discriminate.
Defined.

(** ** Whole runs *)

Lemma for_each_app {A S} (l1 l2 : list A) (body : S -> A -> M S) (s : S) (st : Store) :
  for_each (l1 ++ l2) body s st =
    match for_each l1 body s st with
    | (Ret s', st') => for_each l2 body s' st'
    | (Raise e, st') => (Raise e, st')
    end.
Proof.
  revert s st. induction l1 as [| x rest IH]; intros s st;
    cbn [for_each app bind ret M_monad]; [reflexivity |].
  destruct (body s x st) as [[s' | e] st']; [apply IH | reflexivity].
Qed.

Lemma raises_only_ret {A} (ok : exn -> Prop) (a : A) : raises_only ok (ret a).
Proof. intros st H. exact H. Qed.

Lemma raises_only_bind {A A'} (ok : exn -> Prop) (c : M A) (k : A -> M A') :
  raises_only ok c -> (forall a, raises_only ok (k a)) -> raises_only ok (bind c k).
Proof.
  intros Hc Hk st Hst. specialize (Hc st Hst). cbn [bind M_monad].
  destruct (c st) as [[a | e] st']; [apply Hk |]; exact Hc.
Qed.

Lemma raises_only_for_each {A S} (ok : exn -> Prop) (l : list A)
    (body : S -> A -> M S) :
  (forall s x, raises_only ok (body s x)) ->
  forall s, raises_only ok (for_each l body s).
Proof.
  intros Hbody. induction l as [| x rest IH]; intros s; cbn [for_each].
  - apply raises_only_ret.
  - apply raises_only_bind; [apply Hbody | exact IH].
Qed.

Lemma raises_only_lift {A} (ok : exn -> Prop) (c : outcome A) :
  (forall e, c = Raise e -> ok e) -> raises_only ok (lift c).
Proof.
  intros Hc st Hst. unfold lift. destruct c as [a | e]; [exact Hst |].
  apply Hc. reflexivity.
Qed.

Section WholeRuns.
Context {B : Builtins} {E : Engine}.

Lemma process_connection_loads (files : list UploadedFile) (rs : list Row) (st : Store) :
  records files = Ret rs -> Forall accepted rs -> gate_open st ->
  exists st',
    process_connection files st = (Ret (List.length rs), st')
    /\ table st' = Some rs.
Proof.
  intros Hrec Hacc Hopen.
  rewrite (process_connection_open files st Hopen).
  destruct (load_files_ok files [] rs
              (mkStore (Some []) (indexes st) (journal st ++ [CreateTable]))
              Hrec eq_refl Hacc) as (st1 & Hloop & Ht1).
  rewrite Hloop. cbn [app] in *.
  destruct (create_indexes_returns st1) as (st2 & Hidx & Htable & _).
  rewrite Hidx. exists st2. split; [reflexivity | congruence].
Qed.

(** The rows are stored file after file in upload order, and what a file
    contributes does not depend on the files around it. *)
Theorem rows_in_upload_order (files1 files2 : list UploadedFile)
    (rs1 rs2 : list Row) (st : Store) :
  records files1 = Ret rs1 ->
  records files2 = Ret rs2 ->
  Forall accepted (rs1 ++ rs2) ->
  gate_open st ->
  exists st',
    process_connection (files1 ++ files2) st
      = (Ret (List.length rs1 + List.length rs2)%nat, st')
    /\ table st' = Some (rs1 ++ rs2).
Proof.
  intros H1 H2 Hacc Hopen.
  assert (Hrec : records (files1 ++ files2) = Ret (rs1 ++ rs2))
    by (apply concat_records_app; assumption).
  destruct (process_connection_loads _ _ st Hrec Hacc Hopen) as (st' & Hrun & Ht).
  exists st'. rewrite Hrun, List.length_app. split; [reflexivity | exact Ht].
Qed.

(** While the files are loaded no index is created or dropped. *)
Lemma load_files_indexes (files : list UploadedFile) (loaded : list Row)
    (i0 : list string) :
  hoare (fun st => indexes st = i0) (for_each files process_file loaded)
    (fun _ st' => indexes st' = i0) (fun st' => indexes st' = i0).
Proof.
  apply (load_files_inv (fun _ _ st => indexes st = i0) (fun st => indexes st = i0)
           (fun _ => True)).
  - intros batch dados st H. exact H.
  - intros row batch dados st _ H. exact H.
  - intros batch dados _ st Hi.
    destruct (executemany_frame batch st) as [Hi' _].
    destruct (executemany batch st) as [[[] | e] st']; cbn [snd] in Hi'; congruence.
  - apply List.Forall_forall. intros file _ t fatura h v det row v' _ _ _. exact I.
Qed.

(** A file lxml rejects ends the run, but the files before it stay loaded:
    their rows are in the table and no index has been created. If they
    stored any row, every later run on this database, whatever it is given,
    returns that count and loads nothing: the rest of the upload is never
    read. *)
Theorem rejected_file_leaves_earlier_rows (files1 : list UploadedFile)
    (bad : UploadedFile) (files2 : list UploadedFile) (rs : list Row) (st : Store) :
  records files1 = Ret rs ->
  Forall accepted rs ->
  gate_open st ->
  tree bad = None ->
  exists st',
    process_connection (files1 ++ bad :: files2) st = (Raise XMLSyntaxError, st')
    /\ table st' = Some rs
    /\ indexes st' = indexes st
    /\ (rs <> [] ->
        forall files', process_connection files' st' = (Ret (List.length rs), st')).
Proof.
  intros Hrec Hacc Hopen Hbad.
  rewrite (process_connection_open _ st Hopen), for_each_app.
  destruct (load_files_ok files1 [] rs
              (mkStore (Some []) (indexes st) (journal st ++ [CreateTable]))
              Hrec eq_refl Hacc) as (st1 & Hloop & Ht1).
  pose proof (load_files_indexes files1 [] (indexes st)
                (mkStore (Some []) (indexes st) (journal st ++ [CreateTable]))
                eq_refl) as Hidx.
  rewrite Hloop in *. cbn [app] in *.
  cbn [for_each bind ret M_monad]. unfold process_file at 1. rewrite Hbad.
  unfold raise. exists st1. split; [reflexivity |]. split; [exact Ht1 |].
  split; [exact Hidx |].
  intros Hne files'. apply process_connection_found; assumption.
Qed.

Lemma read_header_raises (t fatura : element) (e : exn) :
  read_header t fatura = Raise e -> e = AttributeError.
Proof.
  unfold read_header.
  destruct (find [Child "NFComVivo"] fatura) as [nf |];
    [| intros H; injection H as H; symmetry; exact H].
  destruct (find [Self; Descendant (qn "ide")] nf) as [ide |]; [| discriminate].
  destruct (find [Child (qn "nNF")] ide) as [nNF_elem |]; [| discriminate].
  destruct (find [Child (qn "dhEmi")] ide) as [dhEmi_elem |]; [| discriminate].
  destruct (py_int (text nNF_elem)) as [z | e']; cbn; discriminate.
Qed.

Lemma raises_only_insert_rows (batch : list Row) :
  raises_only run_error (insert_rows batch).
Proof.
  induction batch as [| r rest IH]; intros st Hst; cbn; [exact Hst |].
  destruct (table st) as [rows |] eqn:Ht; [| contradiction].
  destruct (accepts r); [| right; right; reflexivity].
  apply IH. discriminate.
Qed.

Lemma raises_only_executemany (batch : list Row) :
  raises_only run_error (executemany batch).
Proof.
  intros st Hst. unfold executemany. apply raises_only_insert_rows. exact Hst.
Qed.

Lemma raises_only_process_file (loaded : list Row) (file : UploadedFile) :
  raises_only run_error (process_file loaded file).
Proof.
  unfold process_file. destruct (tree file) as [t |];
    [| intros st _; left; reflexivity].
  apply raises_only_bind.
  - apply raises_only_for_each. intros ls fatura. unfold process_fatura.
    apply raises_only_bind.
    + apply raises_only_lift. intros e He. right. left.
      apply (read_header_raises t fatura e He).
    + intros [h |]; [| apply raises_only_ret].
      apply raises_only_bind; [| intros s; apply raises_only_ret].
      apply raises_only_for_each. intros s det. unfold process_det.
      apply raises_only_bind.
      * apply raises_only_lift. intros e He.
        destruct (extract_item_returns file.(name) (h_codigo_filial h) (h_nNF h)
                    (h_dhEmi h) (fst s) det) as [item Hitem].
        rewrite Hitem in He. discriminate.
      * intros [[row w] |]; [| apply raises_only_ret].
        apply raises_only_bind; [| intros ls'; apply raises_only_ret].
        unfold append_row.
        destruct (1000 <=? List.length (batch_data (snd s) ++ [row]))%nat;
          [| apply raises_only_ret].
        apply raises_only_bind; [apply raises_only_executemany |].
        intros _. apply raises_only_ret.
  - intros ls. destruct (batch_data ls); [apply raises_only_ret |].
    apply raises_only_bind; [apply raises_only_executemany |].
    intros _. apply raises_only_ret.
Qed.

(** A run ends with an exception only for a file lxml rejects, an envelope
    without [NFComVivo] child, or a tuple the engine refuses: the count
    query on a missing table and the index statements never fail it. *)
Theorem run_errors (files : list UploadedFile) (st : Store) (e : exn) :
  fst (process_connection files st) = Raise e -> run_error e.
Proof.
  destruct (gate_cases st) as [Hopen | (rows & Ht & Hne)].
  - rewrite (process_connection_open files st Hopen).
    pose proof (raises_only_for_each run_error files process_file
                  raises_only_process_file []
                  (mkStore (Some []) (indexes st) (journal st ++ [CreateTable]))
                  ltac:(discriminate)) as Hloop.
    destruct (for_each files process_file [] _) as [[loaded | e'] st1]; cbn [fst].
    + discriminate.
    + intros He. injection He as He. subst e'. exact Hloop.
  - rewrite (process_connection_found files st rows Ht Hne). discriminate.
Qed.

End WholeRuns.

Lemma rows_in_upload_order_witness :
  exists st',
    @process_connection plain_builtins lenient_engine [sample_file; large_file]
      empty_store = (Ret 2504%nat, st')
    /\ option_map (@List.length Row) (table st') = Some 2504%nat.
Proof.
  assert (Hlen : List.length (returned (@records plain_builtins [sample_file])) = 4%nat)
    by (vm_compute; reflexivity).
  assert (Hlarge : List.length large_rows = 2500%nat) by (vm_compute; reflexivity).
  destruct (@rows_in_upload_order plain_builtins lenient_engine
              [sample_file] [large_file]
              (returned (@records plain_builtins [sample_file])) large_rows empty_store)
    as (st' & Hrun & Ht).
  - vm_compute. reflexivity.
  - vm_compute. reflexivity.
  - apply List.Forall_forall. intros r _. reflexivity.
  - left. reflexivity.
  - exists st'. cbn [app] in Hrun. rewrite Hrun, Ht, Hlen, Hlarge.
    cbn [option_map]. rewrite List.length_app, Hlen, Hlarge. split; reflexivity.
Defined.

Lemma rejected_file_leaves_earlier_rows_witness :
  exists st',
    @process_connection plain_builtins lenient_engine
      [sample_file; broken_file; large_file] empty_store
      = (Raise XMLSyntaxError, st')
    /\ option_map (@List.length Row) (table st') = Some 4%nat
    /\ indexes st' = []
    /\ @process_connection plain_builtins lenient_engine
         [sample_file; sample_file; large_file] st' = (Ret 4%nat, st').
Proof.
  assert (Hlen : List.length (returned (@records plain_builtins [sample_file])) = 4%nat)
    by (vm_compute; reflexivity).
  destruct (@rejected_file_leaves_earlier_rows plain_builtins lenient_engine
              [sample_file] broken_file [large_file]
              (returned (@records plain_builtins [sample_file])) empty_store)
    as (st' & Hrun & Ht & Hidx & Hlater).
  - vm_compute. reflexivity.
  - apply List.Forall_forall. intros r _. reflexivity.
  - left. reflexivity.
  - reflexivity.
  - exists st'. split; [exact Hrun |]. rewrite Ht. cbn [option_map]. rewrite Hlen.
    split; [reflexivity |]. split; [exact Hidx |].
    rewrite <- Hlen. apply Hlater. intros Hnil. rewrite Hnil in Hlen. discriminate.
Defined.

Lemma run_errors_witness : run_error AttributeError.
Proof.
  apply (@run_errors plain_builtins lenient_engine [headless_file] empty_store).
  vm_compute. reflexivity.
Defined.

(** ** The size of the batches *)

Section BatchSizes.
Context {B : Builtins} {E : Engine}.

Lemma executemany_sized (batch : list Row) (st : Store) :
  (1 <= List.length batch <= 1000)%nat ->
  Forall sized (journal st) ->
  Forall sized (journal (snd (executemany batch st))).
Proof.
  intros Hlen Hj. destruct (executemany_frame batch st) as [_ Hj'].
  rewrite Hj'. apply List.Forall_app. split; [exact Hj |].
  constructor; [exact Hlen | constructor].
Qed.

Lemma append_row_capacity (row : Row) (ls : Lists) :
  hoare (within_capacity ls) (append_row row ls) within_capacity
    (fun st => Forall sized (journal st)).
Proof.
  intros st [Hb Hj]. unfold append_row.
  destruct (1000 <=? List.length (batch_data ls ++ [row]))%nat eqn:Hfull;
    cbn [bind ret M_monad].
  - assert (Hlen : (1 <= List.length (batch_data ls ++ [row]) <= 1000)%nat).
    { rewrite List.length_app. cbn. lia. }
    pose proof (executemany_sized _ st Hlen Hj) as Hj'.
    destruct (executemany (batch_data ls ++ [row]) st) as [[[] | e] st'];
      cbn [snd] in Hj'; [| exact Hj'].
    split; [cbn; lia | exact Hj'].
  - apply Nat.leb_gt in Hfull. split; [exact Hfull | exact Hj].
Qed.

Lemma process_file_capacity (loaded : list Row) (file : UploadedFile) :
  hoare (fun st => Forall sized (journal st)) (process_file loaded file)
    (fun _ st => Forall sized (journal st)) (fun st => Forall sized (journal st)).
Proof.
  intros st Hj. unfold process_file.
  destruct (tree file) as [t |]; [| exact Hj].
  cbn [bind ret M_monad].
  pose proof (hoare_for_each within_capacity (fun st => Forall sized (journal st))
                (findall [Child "Fatura"] t) (process_fatura (name file) t)) as Hloop.
  assert (Hbody : forall ls fatura, In fatura (findall [Child "Fatura"] t) ->
            hoare (within_capacity ls) (process_fatura (name file) t ls fatura)
              within_capacity (fun st => Forall sized (journal st))).
  { intros ls fatura _ s Hs. unfold process_fatura, lift. cbn [bind ret M_monad].
    destruct (read_header t fatura) as [[h |] | e]; [| exact Hs | apply Hs].
    pose proof (hoare_for_each (fun s => within_capacity (snd s))
                  (fun st => Forall sized (journal st))
                  (findall [Self; Descendant (qn "det")] fatura)
                  (process_det (name file) (h_codigo_filial h) (h_nNF h) (h_dhEmi h)))
      as Hdets.
    assert (Hdet : forall s0 det, In det (findall [Self; Descendant (qn "det")] fatura) ->
              hoare (within_capacity (snd s0))
                (process_det (name file) (h_codigo_filial h) (h_nNF h) (h_dhEmi h) s0 det)
                (fun s' => within_capacity (snd s'))
                (fun st => Forall sized (journal st))).
    { intros s0 det _ s1 Hs1. unfold process_det, lift. cbn [bind ret M_monad].
      destruct (extract_item _ _ _ _ (fst s0) det) as [[[row w] |] | e];
        [| exact Hs1 | apply Hs1].
      pose proof (append_row_capacity row (snd s0) s1 Hs1) as Happ.
      destruct (append_row row (snd s0) s1) as [[ls' | e] s2]; exact Happ. }
    specialize (Hdets Hdet (of_str (h_vNF h), ls) s Hs).
    destruct (for_each _ _ _ s) as [[s' | e] s2]; exact Hdets. }
  assert (Hstart : within_capacity (mkLists [] loaded) st)
    by (split; [cbn; lia | exact Hj]).
  specialize (Hloop Hbody (mkLists [] loaded) st Hstart).
  destruct (for_each _ _ _ st) as [[ls | e] st']; [| exact Hloop].
  destruct Hloop as [Hb Hj'].
  destruct (batch_data ls) as [| r batch] eqn:Hbatch; [exact Hj' |].
  cbn [bind ret M_monad].
  assert (Hlen : (1 <= List.length (r :: batch) <= 1000)%nat) by (cbn in *; lia).
  pose proof (executemany_sized _ st' Hlen Hj') as Hj''.
  destruct (executemany (r :: batch) st') as [[[] | e] st'']; exact Hj''.
Qed.

(** Every insert statement a run issues carries at least one tuple and at
    most 1000: [executemany] is never called with an empty list, and a batch
    never grows beyond the capacity. *)
Theorem batches_within_capacity (files : list UploadedFile) (st : Store) :
  Forall sized (journal st) ->
  Forall sized (journal (snd (process_connection files st))).
Proof.
  intros Hj.
  destruct (gate_cases st) as [Hopen | (rows & Ht & Hne)].
  - rewrite (process_connection_open files st Hopen).
    pose proof (hoare_for_each (fun _ st => Forall sized (journal st))
                  (fun st => Forall sized (journal st)) files process_file
                  (fun loaded file _ => process_file_capacity loaded file) []
                  (mkStore (Some []) (indexes st) (journal st ++ [CreateTable])))
      as Hloop.
    specialize (Hloop ltac:(cbn; apply List.Forall_app; split;
                             [exact Hj | repeat constructor])).
    destruct (for_each files process_file [] _) as [[loaded | e] st1]; cbn [snd];
      [| exact Hloop].
    destruct (create_indexes_returns st1) as (st2 & Hidx & _ & idx & Hj2 & Hidxs).
    rewrite Hidx. cbn [snd]. rewrite Hj2. apply List.Forall_app. split; [exact Hloop |].
    eapply List.Forall_impl; [| exact Hidxs].
    intros [| batch | name0] H; cbn in *; try contradiction; exact I.
  - rewrite (process_connection_found files st rows Ht Hne). exact Hj.
Qed.

End BatchSizes.

Lemma batches_within_capacity_witness :
  Forall sized
    (journal (snd (@process_connection plain_builtins lenient_engine [large_file]
                     empty_store))).
Proof.
  apply (@batches_within_capacity plain_builtins lenient_engine [large_file] empty_store).
  constructor.
Defined.

(** ** The fingerprint, the directory of databases and the clearing button *)

Section Directory.
Context {B : Builtins} {E : Engine}.

(** The session id is computed from the names and sizes alone: two uploads
    that agree on them get the same database, whatever the files contain. *)
Theorem fingerprint_ignores_content (files1 files2 : list UploadedFile) :
  List.map name files1 = List.map name files2 ->
  List.map size files1 = List.map size files2 ->
  get_file_hash files1 = get_file_hash files2
  /\ forall dbs : gmap string Store,
       get_db_connection (get_file_hash files1) dbs
       = get_db_connection (get_file_hash files2) dbs.
Proof.
  intros Hn Hs.
  pose proof (get_file_hash_names_sizes files1 files2 Hn Hs) as Hhash.
  split; [exact Hhash |]. intros dbs. rewrite Hhash. reflexivity.
Qed.


End Directory.

Lemma fingerprint_ignores_content_witness :
  @get_file_hash plain_builtins [sample_file]
  = @get_file_hash plain_builtins [mkFile "a.xml" 10 None].
Proof.
  apply (@fingerprint_ignores_content plain_builtins
           [sample_file] [mkFile "a.xml" 10 None]); reflexivity.
Defined.


(** ** The query sent to the engine *)

Lemma contains_app_r (sub a b : string) :
  contains sub b = true -> contains sub (a ++ b) = true.
Proof.
  intros Hb. induction a as [| c a IH]; [exact Hb |].
  change (contains sub (String c (a ++ b)) = true). cbn [contains].
  destruct (String.prefix sub (String c (a ++ b))); [reflexivity | exact IH].
Qed.

Lemma map_string_app (f : ascii -> ascii) (a b : string) :
  map_string f (a ++ b) = (map_string f a ++ map_string f b)%string.
Proof.
  induction a as [| c a IH]; [reflexivity |].
  change (String (f c) (map_string f (a ++ b))
          = String (f c) (map_string f a ++ map_string f b)).
  rewrite IH. reflexivity.
Qed.

Section Query.
Context {S : StrMethods}.

(** Provided [upper] works character by character and leaves the appended
    clause as it is: with the limit box ticked, the query sent is the
    stripped query when that mentions LIMIT in some letter case, however it
    does, and the stripped query followed by [" LIMIT 1000"] otherwise, and
    in both cases it mentions LIMIT; with the box cleared it is the stripped
    query. *)
Theorem capped_query_mentions_limit (query : string) :
  (forall a b, upper (a ++ b) = (upper a ++ upper b)%string) ->
  upper " LIMIT 1000" = " LIMIT 1000" ->
  contains "LIMIT" (upper (final_query true query)) = true
  /\ (final_query true query = strip query
      \/ (contains "LIMIT" (upper (strip query)) = false
          /\ final_query true query = (strip query ++ " LIMIT 1000")%string))
  /\ final_query false query = strip query.
Proof.
  intros Happ Hclause. unfold final_query. cbn [andb].
  destruct (contains "LIMIT" (upper (strip query))) eqn:Hc; cbn [negb].
  - split; [exact Hc |]. split; [left |]; reflexivity.
  - split; [| split; [right; split |]; reflexivity].
    rewrite Happ, Hclause. apply contains_app_r. reflexivity.
Qed.

End Query.

Lemma capped_query_mentions_limit_witness :
  @final_query plain_strings true "  select * from itens_completos "
    = "select * from itens_completos LIMIT 1000"
  /\ @final_query plain_strings true "select credit_limit from itens_completos"
     = "select credit_limit from itens_completos".
Proof.
  split.
  - destruct (@capped_query_mentions_limit plain_strings
                "  select * from itens_completos "
                (map_string_app ascii_upper) eq_refl) as (_ & [Hsame | [_ Hcap]] & _).
    + vm_compute in Hsame. discriminate.
    + rewrite Hcap. vm_compute. reflexivity.
  - destruct (@capped_query_mentions_limit plain_strings
                "select credit_limit from itens_completos"
                (map_string_app ascii_upper) eq_refl) as (_ & [Hsame | [Hno _]] & _).
    + rewrite Hsame. vm_compute. reflexivity.
    + vm_compute in Hno. discriminate.
Defined.
